(** * DewDash (s24_web_dashboard.py): register decoder, acquisition cycle,
      snapshot store and shutdown flag

    A shallow embedding of the parts of [s24_web_dashboard.py] that carry
    the program's behaviour:

    - the register decoder inlined in [read_sensor_data] (the scaling
      branch on [raw_values[0] > 1000], the derived spread);
    - one iteration of the [while True] loop of [read_sensor_data], with
      its [try]/[except] and the calls it makes on the Modbus client;
    - the module-level dictionary [sensor_data] and the two ways the loop
      writes it (rebinding the name, storing one key in place);
    - the Flask handlers [get_data] and [shutdown];
    - the [KeyboardInterrupt] handler of [main] that sets [shutdown_flag].

    Python's [float] is IEEE 754 binary64, which is what Rocq's primitive
    [float] is, so the decoder is modelled bit for bit.  Console output
    ([print]) and the local [first_connection], which only gates console
    output, are not modelled. *)

From Stdlib Require Import ZArith QArith Qabs Floats Uint63 Lia.
From stdpp Require Import base option list strings gmap.

Set Warnings "-inexact-float".
Open Scope Z_scope.

(** ** Python values and exceptions *)

(** The values stored under the keys of [sensor_data]. *)
Inductive value : Type :=
  | VFloat (f : float)
  | VStr (s : string)
  | VInts (l : list Z).

(** A Python dictionary with string keys (also the JSON object that
    [jsonify] serialises). *)
Abbreviation dict := (gmap string value).

(** The result of evaluating a Python expression or statement: it returns
    a value, or raises an exception [e], of which the program only ever
    uses [str(e)]. *)
Inductive outcome (A : Type) : Type :=
  | Ret (a : A)
  | Raise (msg : string).
Arguments Ret {A} a.
Arguments Raise {A} msg.

#[global] Instance outcome_ret : MRet outcome := fun _ a => Ret a.
#[global] Instance outcome_bind : MBind outcome := fun _ _ k m =>
  match m with
  | Ret a => k a
  | Raise msg => Raise msg
  end.

(** ** Python arithmetic on registers *)

(** A Modbus holding register: an unsigned 16-bit integer. *)
Definition u16 (r : Z) : Prop := 0 <= r <= 65535.

(** [float(n)] for a Python [int] (exact below 2^53). *)
Definition float_of_int (n : Z) : float :=
  if n <? 0 then PrimFloat.opp (PrimFloat.of_uint63 (Uint63.of_Z (- n)))
  else PrimFloat.of_uint63 (Uint63.of_Z n).

(** [n / d] for an [int] [n] and a [float] [d]: true division, which
    raises [ZeroDivisionError] on a zero divisor. *)
Definition py_truediv (n : Z) (d : float) : outcome float :=
  if PrimFloat.eqb d 0%float then Raise "float division by zero"
  else Ret (PrimFloat.div (float_of_int n) d).

(** [l[i]] for a list [l] and an index [i >= 0]: raises [IndexError] out
    of range. *)
Definition py_index (l : list Z) (i : nat) : outcome Z :=
  match l !! i with
  | Some x => Ret x
  | None => Raise "list index out of range"
  end.

(** ** The register decoder (read_sensor_data, the body of
       [if not result.isError()]) *)

(** The local variables the decoder computes. *)
Record reading : Type := Reading {
  humidity : float;
  temp_c : float;
  temp_f : float;
  dewpoint_c : float;
  dewpoint_f : float;
  dewpoint_spread : float
}.

Definition decode (raw_values : list Z) : outcome reading :=
  r0 ← py_index raw_values 0;
  '(humidity, temp_c, temp_f, dewpoint_c, dewpoint_f) ←
    (if 1000 <? r0 then
       (* Raw values - apply scaling *)
       h0 ← py_index raw_values 0; humidity ← py_truediv h0 100%float;
       r1 ← py_index raw_values 1; temp_c ← py_truediv r1 20%float;
       r2 ← py_index raw_values 2; temp_f ← py_truediv r2 20%float;
       r3 ← py_index raw_values 3; dewpoint_c ← py_truediv r3 100%float;
       r4 ← py_index raw_values 4; dewpoint_f ← py_truediv r4 100%float;
       mret (humidity, temp_c, temp_f, dewpoint_c, dewpoint_f)
     else
       (* Already scaled *)
       h0 ← py_index raw_values 0;
       r1 ← py_index raw_values 1;
       r2 ← py_index raw_values 2;
       r3 ← py_index raw_values 3;
       r4 ← py_index raw_values 4;
       mret (float_of_int h0, float_of_int r1, float_of_int r2,
             float_of_int r3, float_of_int r4));
  (* Calculate dew point spread *)
  let dewpoint_spread := PrimFloat.sub temp_c dewpoint_c in
  mret (Reading humidity temp_c temp_f dewpoint_c dewpoint_f dewpoint_spread).

(** ** The Modbus client and the clock, as one loop iteration sees them *)

(** What [read_holding_registers] returns: [isError()] and [registers]. *)
Record modbus_response : Type := Response {
  isError : bool;
  registers : list Z
}.

(** The behaviour of the outside world during one iteration of the loop:
    what each call on [modbus_client] returns or raises, and the string
    [datetime.now().strftime('%Y-%m-%d %H:%M:%S')] evaluates to. *)
Record cycle_env : Type := CycleEnv {
  env_connect : outcome bool;
  env_read : outcome modbus_response;
  env_now : string;
  env_close : outcome unit
}.

Definition MODBUS_ID : Z := 199.

Inductive client_call : Type :=
  | Connect
  | ReadHoldingRegisters (address count device_id : Z)
  | Close.

(** What the acquisition thread does that other components can observe,
    in program order: calls on the Modbus client, [sensor_data = d]
    (the global name is bound to a new dictionary) and
    [sensor_data[k] = v] (one key of the current dictionary is stored in
    place). *)
Inductive action : Type :=
  | Call (c : client_call)
  | Rebind (d : dict)
  | SetItem (k : string) (v : value).

(** Statements of the loop body: the actions performed so far, and how the
    statement ended.  An exception keeps the actions already performed. *)
Definition acq (A : Type) : Type := list action * outcome A.

#[global] Instance acq_ret : MRet acq := fun _ a => ([], Ret a).
#[global] Instance acq_bind : MBind acq := fun _ _ k m =>
  match m with
  | (log, Ret a) => let '(log', r) := k a in (log ++ log', r)
  | (log, Raise msg) => (log, Raise msg)
  end.

Definition emit (a : action) : acq unit := ([a], Ret tt).
Definition call {A : Type} (c : client_call) (r : outcome A) : acq A :=
  ([Call c], r).
Definition lift {A : Type} (o : outcome A) : acq A := ([], o).

(** [try: body / except Exception as e: handler(str(e))]. *)
Definition try_except {A : Type} (body : acq A) (handler : string → acq A)
  : acq A :=
  match body with
  | (log, Raise msg) => let '(log', r) := handler msg in (log ++ log', r)
  | (log, Ret a) => (log, Ret a)
  end.

(** ** The snapshot dictionary *)

(** The module-level initial value of [sensor_data]. *)
Definition sensor_data_init : dict :=
  list_to_map [
    ("humidity", VFloat 0%float);
    ("temp_c", VFloat 0%float);
    ("temp_f", VFloat 0%float);
    ("dewpoint_c", VFloat 0%float);
    ("dewpoint_f", VFloat 0%float);
    ("dewpoint_spread", VFloat 0%float);
    ("timestamp", VStr "");
    ("status", VStr "Initializing...");
    ("raw_values", VInts [0; 0; 0; 0; 0])
  ].

(** The dictionary display of the success path. *)
Definition online_dict (rd : reading) (now : string) (raw_values : list Z)
  : dict :=
  list_to_map [
    ("humidity", VFloat (humidity rd));
    ("temp_c", VFloat (temp_c rd));
    ("temp_f", VFloat (temp_f rd));
    ("dewpoint_c", VFloat (dewpoint_c rd));
    ("dewpoint_f", VFloat (dewpoint_f rd));
    ("dewpoint_spread", VFloat (dewpoint_spread rd));
    ("timestamp", VStr now);
    ("status", VStr "Online");
    ("raw_values", VInts raw_values)
  ].

(** The keys of a snapshot that make up the Reading: all but ["status"]. *)
Definition reading_keys : list string :=
  ["humidity"; "temp_c"; "temp_f"; "dewpoint_c"; "dewpoint_f";
   "dewpoint_spread"; "timestamp"; "raw_values"].

(** ** One iteration of the loop of read_sensor_data *)

Definition read_cycle (env : cycle_env) : acq unit :=
  try_except
    (connected ← call Connect (env_connect env);
     if (connected : bool) then
       result ← call (ReadHoldingRegisters 0 5 MODBUS_ID) (env_read env);
       _ ← (if negb (isError result) then
              let raw_values := registers result in
              rd ← lift (decode raw_values);
              emit (Rebind (online_dict rd (env_now env) raw_values))
            else
              emit (SetItem "status" (VStr "Modbus Error")));
       call Close (env_close env)
     else
       emit (SetItem "status" (VStr "Connection Failed")))
    (fun e => emit (SetItem "status" (VStr ("Error: " +:+ e)))).

(** The actions of one iteration. *)
Definition cycle_actions (env : cycle_env) : list action :=
  (read_cycle env).1.

(** The effect of an action on the dictionary [d] that the global name
    [sensor_data] denotes. *)
Definition apply_action (d : dict) (a : action) : dict :=
  match a with
  | Call _ => d
  | Rebind d' => d'
  | SetItem k v => <[k := v]> d
  end.

(** One iteration, and a run of iterations (a finite prefix of
    [while True]), as transformers of the dictionary [sensor_data]. *)
Definition loop_iteration (d : dict) (env : cycle_env) : dict :=
  foldl apply_action d (cycle_actions env).

Definition read_sensor_data (d : dict) (envs : list cycle_env) : dict :=
  foldl loop_iteration d envs.

(** The Modbus client calls made during one iteration, in order. *)
Definition client_calls (env : cycle_env) : list client_call :=
  omap (fun a => match a with Call c => Some c | _ => None end)
       (cycle_actions env).

(** Whether an iteration reaches [sensor_data = {...}], and so publishes
    a new Reading. *)
Definition is_rebind (a : action) : bool :=
  match a with Rebind _ => true | _ => false end.

Definition publishes (env : cycle_env) : bool :=
  existsb is_rebind (cycle_actions env).

(** The iterations that end without a new Reading, each with the tag
    the loop leaves in [sensor_data['status']]: [connect()] returns
    false; the response is a Modbus error; or a fault is raised by
    [connect()], by [read_holding_registers], by the decoder, or by
    [close()] after a Modbus error response. *)
Inductive cycle_failure (env : cycle_env) : string → Prop :=
  | connect_failed :
      env_connect env = Ret false →
      cycle_failure env "Connection Failed"
  | modbus_error res :
      env_connect env = Ret true → env_read env = Ret res →
      isError res = true → env_close env = Ret tt →
      cycle_failure env "Modbus Error"
  | fault_in_connect msg :
      env_connect env = Raise msg →
      cycle_failure env ("Error: " +:+ msg)
  | fault_in_read msg :
      env_connect env = Ret true → env_read env = Raise msg →
      cycle_failure env ("Error: " +:+ msg)
  | fault_in_decode res msg :
      env_connect env = Ret true → env_read env = Ret res →
      isError res = false → decode (registers res) = Raise msg →
      cycle_failure env ("Error: " +:+ msg)
  | fault_in_close_after_modbus_error res msg :
      env_connect env = Ret true → env_read env = Ret res →
      isError res = true → env_close env = Raise msg →
      cycle_failure env ("Error: " +:+ msg).

(** ** The process: module globals, main and the Flask handlers *)

(** Where the main thread is: before its final [try], inside
    [while True: time.sleep(1)], inside the [except KeyboardInterrupt]
    handler (at [time.sleep(3)]), or gone. *)
Inductive phase : Type := Starting | KeepAlive | GracePeriod | Exited.

Record process : Type := Process {
  sensor_data : dict;
  shutdown_flag : bool;
  main_at : phase
}.

Definition process_init : process :=
  Process sensor_data_init false Starting.

(** [/api/data]: [jsonify(sensor_data)]. *)
Definition get_data (p : process) : dict := sensor_data p.

(** [/shutdown]. *)
Definition shutdown (p : process) : dict :=
  if shutdown_flag p then {["status" := VStr "shutting_down"]}
  else {["status" := VStr "running"]}.

(** What can happen to the process: the main thread reaches its final
    [try]; Ctrl+C raises [KeyboardInterrupt] in the main thread;
    [time.sleep(3)] returns and [sys.exit(0)] runs; the acquisition
    thread runs one iteration; Flask serves a GET request. *)
Inductive event : Type :=
  | MainReady
  | KeyboardInterrupt
  | GraceElapsed
  | Acquire (env : cycle_env)
  | GetData
  | GetShutdown.

(** [shutdown_flag = True] is executed by this step. *)
Definition assigns_flag (p : process) (e : event) : bool :=
  match main_at p, e with
  | KeepAlive, KeyboardInterrupt => true
  | _, _ => false
  end.

(** One step of the process, with the JSON body of the response when the
    event is a request.  A [KeyboardInterrupt] is caught only inside the
    final [try]; anywhere else it ends the main thread.  Events that
    arrive once the main thread is gone are not followed: the state is
    left as it is and no response is recorded for them, although the
    daemon threads may still answer while the interpreter shuts down. *)
Definition step (p : process) (e : event) : process * option dict :=
  match main_at p with
  | Exited => (p, None)
  | at_ =>
    match e with
    | MainReady =>
        (match at_ with
         | Starting => Process (sensor_data p) (shutdown_flag p) KeepAlive
         | _ => p
         end, None)
    | KeyboardInterrupt =>
        (match at_ with
         | KeepAlive => Process (sensor_data p) true GracePeriod
         | _ => Process (sensor_data p) (shutdown_flag p) Exited
         end, None)
    | GraceElapsed =>
        (match at_ with
         | GracePeriod => Process (sensor_data p) (shutdown_flag p) Exited
         | _ => p
         end, None)
    | Acquire env =>
        (Process (loop_iteration (sensor_data p) env) (shutdown_flag p) at_,
         None)
    | GetData => (p, Some (get_data p))
    | GetShutdown => (p, Some (shutdown p))
    end
  end.

(** A run: the final state and, for every event, the response it got. *)
Fixpoint run (p : process) (evs : list event)
  : process * list (event * option dict) :=
  match evs with
  | [] => (p, [])
  | e :: evs' =>
      let '(p', r) := step p e in
      let '(q, rs) := run p' evs' in
      (q, (e, r) :: rs)
  end.

(** How many times a run executes [shutdown_flag = True]. *)
Fixpoint flag_assignments (p : process) (evs : list event) : nat :=
  match evs with
  | [] => 0
  | e :: evs' =>
      ((if assigns_flag p e then 1 else 0)
       + flag_assignments (step p e).1 evs')%nat
  end.

(** The state a run ends in. *)
Definition final (p : process) (evs : list event) : process :=
  (run p evs).1.

(** An event that is not an iteration publishing a new Reading. *)
Definition no_success (e : event) : Prop :=
  match e with
  | Acquire env => publishes env = false
  | _ => True
  end.

Definition is_acquire (e : event) : bool :=
  match e with Acquire _ => true | _ => false end.

(** The zero-valued Reading of the module-level [sensor_data]. *)
Definition zero_reading (d : dict) : Prop :=
  d !! "humidity" = Some (VFloat 0%float)
  ∧ d !! "temp_c" = Some (VFloat 0%float)
  ∧ d !! "temp_f" = Some (VFloat 0%float)
  ∧ d !! "dewpoint_c" = Some (VFloat 0%float)
  ∧ d !! "dewpoint_f" = Some (VFloat 0%float)
  ∧ d !! "dewpoint_spread" = Some (VFloat 0%float)
  ∧ d !! "timestamp" = Some (VStr "")
  ∧ d !! "raw_values" = Some (VInts [0; 0; 0; 0; 0]).

(** ** Sample behaviours of the device *)

Definition sample_registers : list Z := [4550; 440; 1124; 1890; 3362].
Definition sample_time : string := "2024-06-01 12:00:00".

(** The device answers with five scaled registers. *)
Definition env_online : cycle_env :=
  CycleEnv (Ret true) (Ret (Response false sample_registers)) sample_time
           (Ret tt).

(** [connect()] returns [False]: the device is unreachable. *)
Definition env_unreachable : cycle_env :=
  CycleEnv (Ret false) (Raise "not connected") sample_time (Ret tt).

(** [connect()] succeeds and [read_holding_registers] raises. *)
Definition env_read_timeout : cycle_env :=
  CycleEnv (Ret true) (Raise "timed out") sample_time (Ret tt).

(** The response is shorter than five registers: the decoder raises. *)
Definition env_short_response : cycle_env :=
  CycleEnv (Ret true) (Ret (Response false [4550; 440])) sample_time
           (Ret tt).

(** The read succeeds and [close()] raises afterwards. *)
Definition env_close_fault : cycle_env :=
  CycleEnv (Ret true) (Ret (Response false sample_registers)) sample_time
           (Raise "socket error").

(** ** The snapshot store under concurrent requests *)

(** Python objects live on a heap; the global name [sensor_data] holds a
    reference.  Dictionaries are never freed while referenced, so the
    heap only grows. *)
Record memory : Type := Memory {
  heap : list dict;
  sensor_ref : nat
}.

Definition memory_init : memory := Memory [sensor_data_init] 0.

(** The dictionary the global name denotes. *)
Definition deref (m : memory) : dict :=
  default ∅ (heap m !! sensor_ref m).

(** The acquisition thread's actions on the heap: [sensor_data = d]
    allocates [d] and binds the name to it; [sensor_data[k] = v] stores
    into the dictionary the name denotes now. *)
Definition mem_apply (m : memory) (a : action) : memory :=
  match a with
  | Call _ => m
  | Rebind d => Memory (heap m ++ [d]) (length (heap m))
  | SetItem k v =>
      Memory (alter (insert k v) (sensor_ref m) (heap m)) (sensor_ref m)
  end.

(** A [get_data] request in flight: [jsonify(sensor_data)] first loads
    the reference held by the global name, then visits the keys of that
    dictionary one at a time, writing each item to the response. *)
Record request : Type := Request {
  req_ref : option nat;
  req_json : dict
}.

Definition request_init : request := Request None ∅.

(** The atomic steps of the two threads, each one operation of the
    interpreter on a shared object: an action of the writer (binding the
    global name, storing one item), the request's load of the global
    name, the request's read of one item.  A schedule is any
    interleaving of them; nothing coarser is assumed of [jsonify], which
    may visit the keys in any order. *)
Inductive tick : Type :=
  | Writer (a : action)
  | Load
  | Visit (k : string).

Definition tick_step (s : memory * request) (t : tick) : memory * request :=
  match t with
  | Writer a => (mem_apply s.1 a, s.2)
  | Load => (s.1, Request (Some (sensor_ref s.1)) (req_json s.2))
  | Visit k =>
      match req_ref s.2 with
      | Some r =>
          match heap s.1 !! r ≫= (.!! k) with
          | Some v => (s.1, Request (Some r) (<[k := v]> (req_json s.2)))
          | None => s
          end
      | None => s
      end
  end.

Definition run_schedule (s : memory * request) (ts : list tick)
  : memory * request :=
  foldl tick_step s ts.

(** The writer's ticks are actions of iterations of the acquisition loop. *)
Definition writer_tick (t : tick) : Prop :=
  match t with
  | Writer a => ∃ env, a ∈ cycle_actions env
  | _ => False
  end.

Definition request_tick (t : tick) : Prop :=
  match t with
  | Visit _ => True
  | _ => False
  end.

(** The writer's actions in a schedule, in order. *)
Definition writes (ts : list tick) : list action :=
  omap (λ t, match t with Writer a => Some a | _ => None end) ts.

(** The keys of every snapshot, in the order of the dictionary display. *)
Definition snapshot_keys : list string :=
  ["humidity"; "temp_c"; "temp_f"; "dewpoint_c"; "dewpoint_f";
   "dewpoint_spread"; "timestamp"; "status"; "raw_values"].

(** The global name refers to an allocated dictionary. *)
Definition mem_wf (m : memory) : Prop :=
  (sensor_ref m < length (heap m))%nat.

(** Every dictionary on the heap has exactly the keys of a snapshot. *)
Definition heap_keys (m : memory) : Prop :=
  ∀ i d, heap m !! i = Some d →
         dom d = (list_to_set snapshot_keys : gset string).

(** [d] was what the global name denoted at some instant of the schedule
    [ts] started in [s]. *)
Definition published_during (s : memory * request) (ts : list tick)
  (d : dict) : Prop :=
  ∃ ts1 ts2, ts = ts1 ++ ts2 ∧ deref (run_schedule s ts1).1 = d.

(** The invariant of a request that loaded the reference [a] in state
    [s0] and has since seen the schedule [ts]: the dictionary [da] at [a]
    was published during [ts]; the items written to the response so far
    all come from one dictionary [snap] published during [ts], which
    differs from [da] at most under ["status"]; every snapshot key
    visited is in the response. *)
Definition request_inv (a : nat) (s0 : memory * request) (ts : list tick)
  (s : memory * request) : Prop :=
  mem_wf s.1 ∧ heap_keys s.1 ∧ req_ref s.2 = Some a
  ∧ ∃ da snap,
      heap s.1 !! a = Some da
      ∧ published_during s0 ts da
      ∧ published_during s0 ts snap
      ∧ req_json s.2 ⊆ snap
      ∧ (∀ k, k ≠ "status" → snap !! k = da !! k)
      ∧ (∀ k, Visit k ∈ ts → k ∈ snapshot_keys →
              is_Some (req_json s.2 !! k))
      ∧ dom snap = (list_to_set snapshot_keys : gset string).

(** ** Floats as exact rationals *)

(** The rational a finite [float] denotes. *)
Definition Q_of_float (f : float) : option Q :=
  match Prim2SF f with
  | S754_zero _ => Some 0%Q
  | S754_finite s m e =>
      Some ((if s then -1 else 1) * inject_Z (Zpos m) * 2 ^ e)%Q
  | _ => None
  end.

(** [f] is finite and within [10^-12] of the rational [q]. *)
Definition approxb (f : float) (q : Q) : bool :=
  match Q_of_float f with
  | Some x => Qle_bool (Qabs (x - q)) (1 # 1000000000000)
  | None => false
  end.

Definition approx (f : float) (q : Q) : Prop := approxb f q = true.

(** [f] is finite and denotes exactly the rational [q]. *)
Definition exactb (f : float) (q : Q) : bool :=
  match Q_of_float f with
  | Some x => Qeq_bool x q
  | None => false
  end.

Definition exact (f : float) (q : Q) : Prop := exactb f q = true.

(** A float that is neither NaN nor an infinity, on its IEEE 754
    representation. *)
Definition SF_finite (x : spec_float) : bool :=
  match x with
  | S754_zero _ | S754_finite _ _ _ => true
  | _ => false
  end.

(** [P] holds of [z], [z + 1], ..., [z + n - 1]. *)
Fixpoint all_from (n : nat) (z : Z) (P : Z → bool) : bool :=
  match n with
  | O => true
  | S k => P z && all_from k (z + 1) P
  end.

(** ** The administrator check (is_admin, run_as_admin and the
       module-level [if not is_admin(): ... run_as_admin()]) *)

(** The operating system as the check sees it: [platform.system()],
    [ctypes.windll.shell32.IsUserAnAdmin()], [os.geteuid()] and
    [ctypes.windll.shell32.ShellExecuteW(None, "runas", ...)] (with the
    import and the path lookups before it). *)
Record admin_env : Type := AdminEnv {
  platform_system : string;
  IsUserAnAdmin : outcome Z;
  geteuid : outcome Z;
  ShellExecuteW : outcome Z
}.

(** What [is_admin] returns: an [int] on Windows, a [bool] elsewhere. *)
Inductive pyval : Type :=
  | PyInt (n : Z)
  | PyBool (b : bool).

(** Python's truth value. *)
Definition truthy (v : pyval) : bool :=
  match v with
  | PyInt n => negb (n =? 0)
  | PyBool b => b
  end.

(** The bare [except:] turns every fault into [False]. *)
Definition is_admin (w : admin_env) : pyval :=
  match
    (if String.eqb (platform_system w) "Windows"
     then n ← IsUserAnAdmin w; mret (PyInt n)
     else uid ← geteuid w; mret (PyBool (uid =? 0)))
  with
  | Ret v => v
  | Raise _ => PyBool false
  end.

(** How a piece of start-up code ends: it returns, or [sys.exit(code)]
    ends the process ([SystemExit] is not an [Exception], so the
    [except Exception] of [run_as_admin] does not catch it). *)
Inductive control : Type :=
  | Returns
  | SysExit (code : Z).

Definition run_as_admin (w : admin_env) : control :=
  if String.eqb (platform_system w) "Windows" then
    match ShellExecuteW w with
    | Ret _ => SysExit 0
    | Raise _ => SysExit 1
    end
  else if String.eqb (platform_system w) "Linux" then SysExit 1
  else Returns.

Definition admin_check (w : admin_env) : control :=
  if negb (truthy (is_admin w)) then run_as_admin w else Returns.

(** ** The start-up wait of main *)

(** [sensor_data.get('status') == 'Online']. *)
Definition status_online (d : dict) : bool :=
  match d !! "status" with
  | Some (VStr s) => String.eqb s "Online"
  | _ => false
  end.

(** [while sensor_data.get('status') != 'Online' and waited < max_wait:
    time.sleep(0.5); waited += 0.5], with [max_wait = 10].  [obs i] is
    the dictionary the global name denotes at the main thread's [i]-th
    read of it; the result is the number of reads made and the final
    [waited].  [waited] starts as the int 0, which compares and adds as
    the float 0.0. *)
Fixpoint wait_for_online (fuel : nat) (obs : nat → dict) (reads : nat)
  (waited : float) : option (nat * float) :=
  match fuel with
  | O => None
  | S fuel' =>
      if negb (status_online (obs reads)) && PrimFloat.ltb waited 10%float
      then wait_for_online fuel' obs (S reads)
             (PrimFloat.add waited 0.5%float)
      else Some (S reads, waited)
  end.

(** The wait and the decision after it:
    [connection_ok = sensor_data.get('status') == 'Online'] is a read of
    its own; [webbrowser.open] is called when it holds.  The result is
    the number of [time.sleep(0.5)] calls and whether the browser is
    opened. *)
Definition startup_wait (fuel : nat) (obs : nat → dict)
  : option (nat * bool) :=
  match wait_for_online fuel obs 0 0%float with
  | Some (reads, _) => Some (pred reads, status_online (obs reads))
  | None => None
  end.

(** The dictionaries the main thread sees when the acquisition thread
    has run the iterations [envs i] between its reads [i - 1] and [i]
    (and [envs 0] before the first). *)
Fixpoint observed (envs : nat → list cycle_env) (i : nat) : dict :=
  match i with
  | O => read_sensor_data sensor_data_init (envs O)
  | S j => read_sensor_data (observed envs j) (envs i)
  end.

(** ** Other readers of sensor_data *)

(** The ticks of a request in a schedule: the keys it visits, in order. *)
Definition visits (ts : list tick) : list string :=
  omap (λ t, match t with Visit k => Some k | _ => None end) ts.

(** [console_display]: [data = sensor_data] loads the reference once;
    the line then reads [data.get('status')], [data.get('temp_c', 0)],
    [data.get('humidity', 0)] and [data.get('dewpoint_c', 0)]. *)
Definition console_keys : list string :=
  ["status"; "temp_c"; "humidity"; "dewpoint_c"].

(** The "First reading" line of [main]:
    [sensor_data.get('humidity', 0)] and [sensor_data.get('temp_c', 0)]
    each load the global name anew. *)
Definition first_reading_ticks (between : list tick) : list tick :=
  [Load; Visit "humidity"] ++ between ++ [Load; Visit "temp_c"].

(** ** The page script (the [<script>] of HTML_TEMPLATE)

    The page receives the JSON of [get_data] and [shutdown]; a JSON
    number is read back as the same binary64 float. *)

(** [if (data.status === 'Online')]: the class of the status badge. *)
Definition status_class (data : dict) : string :=
  match data !! "status" with
  | Some (VStr s) =>
      if String.eqb s "Online" then "status online" else "status offline"
  | _ => "status offline"
  end.

(** [if (data.humidity > 80 || data.humidity < 20)]: the class of the
    humidity card. *)
Definition humidity_card_class (humidity : float) : string :=
  if PrimFloat.ltb 80%float humidity || PrimFloat.ltb humidity 20%float
  then "card warning" else "card".

(** [if (data.status === 'shutting_down')] of the shutdown poll. *)
Definition shutdown_detected (data : dict) : bool :=
  match data !! "status" with
  | Some (VStr s) => String.eqb s "shutting_down"
  | _ => false
  end.

(** The language state of the page: the variable [currentLang] and the
    item ['language'] of [localStorage] ([None] is JavaScript's [null]). *)
Record page_lang : Type := PageLang {
  currentLang : string;
  stored_language : option string
}.

(** [let currentLang = localStorage.getItem('language') || 'pt']: [null]
    and the empty string are falsy. *)
Definition page_load (stored : option string) : page_lang :=
  PageLang (match stored with
            | Some s => if String.eqb s "" then "pt" else s
            | None => "pt"
            end)
           stored.

(** [toggleLanguage]: [currentLang = currentLang === 'pt' ? 'en' : 'pt';
    localStorage.setItem('language', currentLang)]. *)
Definition toggleLanguage (pg : page_lang) : page_lang :=
  let lang := if String.eqb (currentLang pg) "pt" then "en" else "pt" in
  PageLang lang (Some lang).

(** The keys of the [translations] table of the script. *)
Definition translated (lang : string) : Prop :=
  lang = "pt" ∨ lang = "en".

(** The numeric fields of a dictionary are the decoding of the registers
    under its ["raw_values"]. *)
Definition decoded_snapshot (d : dict) : Prop :=
  ∃ raw rd,
    d !! "raw_values" = Some (VInts raw)
    ∧ decode raw = Ret rd
    ∧ d !! "humidity" = Some (VFloat (humidity rd))
    ∧ d !! "temp_c" = Some (VFloat (temp_c rd))
    ∧ d !! "temp_f" = Some (VFloat (temp_f rd))
    ∧ d !! "dewpoint_c" = Some (VFloat (dewpoint_c rd))
    ∧ d !! "dewpoint_f" = Some (VFloat (dewpoint_f rd))
    ∧ d !! "dewpoint_spread" = Some (VFloat (dewpoint_spread rd)).

(** [waited] after [n] rounds of [waited += 0.5]. *)
Definition waited_after (n : nat) : float :=
  Nat.iter n (λ w, PrimFloat.add w 0.5%float) 0%float.

(** The cases of an iteration: what the outside world does, and the
    actions that follow. *)
Inductive cycle_case (env : cycle_env) : list action → Prop :=
  | case_connect_failed :
      env_connect env = Ret false →
      cycle_case env
        [Call Connect; SetItem "status" (VStr "Connection Failed")]
  | case_fault_in_connect msg :
      env_connect env = Raise msg →
      cycle_case env
        [Call Connect; SetItem "status" (VStr ("Error: " +:+ msg))]
  | case_fault_in_read msg :
      env_connect env = Ret true → env_read env = Raise msg →
      cycle_case env
        [Call Connect; Call (ReadHoldingRegisters 0 5 MODBUS_ID);
         SetItem "status" (VStr ("Error: " +:+ msg))]
  | case_modbus_error res :
      env_connect env = Ret true → env_read env = Ret res →
      isError res = true → env_close env = Ret tt →
      cycle_case env
        [Call Connect; Call (ReadHoldingRegisters 0 5 MODBUS_ID);
         SetItem "status" (VStr "Modbus Error"); Call Close]
  | case_modbus_error_close_fault res msg :
      env_connect env = Ret true → env_read env = Ret res →
      isError res = true → env_close env = Raise msg →
      cycle_case env
        [Call Connect; Call (ReadHoldingRegisters 0 5 MODBUS_ID);
         SetItem "status" (VStr "Modbus Error"); Call Close;
         SetItem "status" (VStr ("Error: " +:+ msg))]
  | case_fault_in_decode res msg :
      env_connect env = Ret true → env_read env = Ret res →
      isError res = false → decode (registers res) = Raise msg →
      cycle_case env
        [Call Connect; Call (ReadHoldingRegisters 0 5 MODBUS_ID);
         SetItem "status" (VStr ("Error: " +:+ msg))]
  | case_online res rd :
      env_connect env = Ret true → env_read env = Ret res →
      isError res = false → decode (registers res) = Ret rd →
      env_close env = Ret tt →
      cycle_case env
        [Call Connect; Call (ReadHoldingRegisters 0 5 MODBUS_ID);
         Rebind (online_dict rd (env_now env) (registers res));
         Call Close]
  | case_online_close_fault res rd msg :
      env_connect env = Ret true → env_read env = Ret res →
      isError res = false → decode (registers res) = Ret rd →
      env_close env = Raise msg →
      cycle_case env
        [Call Connect; Call (ReadHoldingRegisters 0 5 MODBUS_ID);
         Rebind (online_dict rd (env_now env) (registers res));
         Call Close; SetItem "status" (VStr ("Error: " +:+ msg))].

(** Python's [0.0 <= x <= 65535.0] for the three ways a register is
    turned into a field. *)
Definition field_in_range (r : Z) : bool :=
  let in_range x :=
    PrimFloat.leb 0%float x && PrimFloat.leb x 65535%float in
  in_range (float_of_int r)
  && in_range (PrimFloat.div (float_of_int r) 20%float)
  && in_range (PrimFloat.div (float_of_int r) 100%float).

(** The warning of the humidity card against the first register. *)
Definition humidity_warning_agrees (r : Z) : bool :=
  let h := if 1000 <? r then PrimFloat.div (float_of_int r) 100%float
           else float_of_int r in
  Bool.eqb (PrimFloat.ltb 80%float h || PrimFloat.ltb h 20%float)
           (if 1000 <? r then (r <? 2000) || (8000 <? r)
            else (r <? 20) || (80 <? r)).

(** * Properties *)

(** ** Exhaustive checks over the 16-bit registers *)

Lemma all_from_spec (P : Z → bool) (n : nat) (z : Z) :
  all_from n z P = true →
  ∀ x, z <= x < z + Z.of_nat n → P x = true.
Proof.
  revert z. induction n as [|n IH]; intros z Hall x Hx.
  - lia.
  - cbn [all_from] in Hall. apply andb_true_iff in Hall as [Hz Hrest].
    destruct (Z.eq_dec x z) as [->|Hne]; [exact Hz|].
    apply (IH (z + 1) Hrest). lia.
Qed.

Lemma u16_forall (P : Z → bool) :
  all_from (Z.to_nat 65536) 0 P = true → ∀ r, u16 r → P r = true.
Proof.
  intros Hall r [Hlo Hhi]. apply (all_from_spec P _ 0 Hall). lia.
Qed.

(** ** The register decoder *)

Section Decoder.
Variables r0 r1 r2 r3 r4 : Z.

(** On five registers every index is in range and every divisor is a
    non-zero constant, so the decoder is a plain case split. *)
Lemma decode_five :
  decode [r0; r1; r2; r3; r4] =
  Ret (if 1000 <? r0 then
         let temp_c := PrimFloat.div (float_of_int r1) 20%float in
         let dewpoint_c := PrimFloat.div (float_of_int r3) 100%float in
         Reading (PrimFloat.div (float_of_int r0) 100%float)
                 temp_c
                 (PrimFloat.div (float_of_int r2) 20%float)
                 dewpoint_c
                 (PrimFloat.div (float_of_int r4) 100%float)
                 (PrimFloat.sub temp_c dewpoint_c)
       else
         Reading (float_of_int r0) (float_of_int r1) (float_of_int r2)
                 (float_of_int r3) (float_of_int r4)
                 (PrimFloat.sub (float_of_int r1) (float_of_int r3))).
Proof.
  unfold decode. cbn. destruct (1000 <? r0); reflexivity.
Qed.
End Decoder.

Lemma five_registers (regs : list Z) :
  length regs = 5%nat →
  ∃ r0 r1 r2 r3 r4, regs = [r0; r1; r2; r3; r4].
Proof.
  intros Hlen.
  destruct regs as [|r0 [|r1 [|r2 [|r3 [|r4 [|r5 regs]]]]]];
    try discriminate Hlen.
  by exists r0, r1, r2, r3, r4.
Qed.

(** The quotient of a 16-bit register by 100.0 or 20.0, and its cast to
    float, are within tolerance of the exact values. *)
Lemma div100_approx (r : Z) :
  u16 r →
  approx (PrimFloat.div (float_of_int r) 100%float) (inject_Z r / 100).
Proof.
  revert r.
  apply (u16_forall
    (fun r => approxb (PrimFloat.div (float_of_int r) 100%float)
                      (inject_Z r / 100))).
  vm_compute. reflexivity.
Qed.

Lemma div20_approx (r : Z) :
  u16 r → approx (PrimFloat.div (float_of_int r) 20%float) (inject_Z r / 20).
Proof.
  revert r.
  apply (u16_forall
    (fun r => approxb (PrimFloat.div (float_of_int r) 20%float)
                      (inject_Z r / 20))).
  vm_compute. reflexivity.
Qed.

Lemma float_of_int_exact (r : Z) :
  u16 r → exact (float_of_int r) (inject_Z r).
Proof.
  revert r.
  apply (u16_forall (fun r => exactb (float_of_int r) (inject_Z r))).
  vm_compute. reflexivity.
Qed.

(** Python's [10.0 < h <= 655.35] and [not h <= 10.0] for the scaled
    humidity [h] of a first register above 1000. *)
Definition scaled_humidity_in_range (r : Z) : bool :=
  let h := PrimFloat.div (float_of_int r) 100%float in
  PrimFloat.ltb 10%float h && PrimFloat.leb h 655.35%float
  && negb (PrimFloat.leb h 10%float).

Lemma scaled_humidity_bounds (r : Z) :
  u16 r → 1000 < r → scaled_humidity_in_range r = true.
Proof.
  intros [_ Hhi] Hlo.
  apply (all_from_spec scaled_humidity_in_range (Z.to_nat 64535) 1001).
  - vm_compute. reflexivity.
  - lia.
Qed.

(** C1: five unsigned 16-bit registers whose first is above 1000 decode to
    humidity = registers[0]/100, tempC = registers[1]/20,
    tempF = registers[2]/20, dewC = registers[3]/100 and
    dewF = registers[4]/100: each field is the binary64 quotient Python
    computes, and that float is within 10^-12 of the exact quotient.
    Registers [4550, 440, 1124, 1890, 3362] decode to the floats 45.5, 22.0,
    56.2, 18.9 and 33.62; the spread is the float 22.0 - 18.9
    (3.1000000000000014), which is 3.10 within the same tolerance. *)
Theorem decode_scaled_registers :
  (∀ r0 r1 r2 r3 r4 : Z,
     u16 r0 → u16 r1 → u16 r2 → u16 r3 → u16 r4 → 1000 < r0 →
     ∃ rd, decode [r0; r1; r2; r3; r4] = Ret rd
       ∧ humidity rd = PrimFloat.div (float_of_int r0) 100%float
       ∧ temp_c rd = PrimFloat.div (float_of_int r1) 20%float
       ∧ temp_f rd = PrimFloat.div (float_of_int r2) 20%float
       ∧ dewpoint_c rd = PrimFloat.div (float_of_int r3) 100%float
       ∧ dewpoint_f rd = PrimFloat.div (float_of_int r4) 100%float
       ∧ approx (humidity rd) (inject_Z r0 / 100)
       ∧ approx (temp_c rd) (inject_Z r1 / 20)
       ∧ approx (temp_f rd) (inject_Z r2 / 20)
       ∧ approx (dewpoint_c rd) (inject_Z r3 / 100)
       ∧ approx (dewpoint_f rd) (inject_Z r4 / 100))
  ∧ (∃ rd, decode [4550; 440; 1124; 1890; 3362] = Ret rd
       ∧ humidity rd = 45.5%float
       ∧ temp_c rd = 22%float
       ∧ temp_f rd = 56.2%float
       ∧ dewpoint_c rd = 18.9%float
       ∧ dewpoint_f rd = 33.62%float
       ∧ dewpoint_spread rd = 3.1000000000000014%float
       ∧ approx (dewpoint_spread rd) 3.1).
Proof.
  split.
  - intros r0 r1 r2 r3 r4 H0 H1 H2 H3 H4 Hgt.
    rewrite decode_five.
    apply Z.ltb_lt in Hgt. rewrite Hgt. cbn zeta.
    eexists. split; [reflexivity|].
    cbn [humidity temp_c temp_f dewpoint_c dewpoint_f].
    repeat split; auto using div100_approx, div20_approx.
  - eexists. split; [vm_compute; reflexivity|].
    cbn [humidity temp_c temp_f dewpoint_c dewpoint_f dewpoint_spread].
    repeat split; vm_compute; reflexivity.
Qed.

Lemma decode_scaled_registers_witness :
  (u16 4550 ∧ u16 440 ∧ u16 1124 ∧ u16 1890 ∧ u16 3362 ∧ 1000 < 4550)
  ∧ ∃ rd, decode [4550; 440; 1124; 1890; 3362] = Ret rd
       ∧ humidity rd = PrimFloat.div (float_of_int 4550) 100%float
       ∧ temp_c rd = PrimFloat.div (float_of_int 440) 20%float
       ∧ temp_f rd = PrimFloat.div (float_of_int 1124) 20%float
       ∧ dewpoint_c rd = PrimFloat.div (float_of_int 1890) 100%float
       ∧ dewpoint_f rd = PrimFloat.div (float_of_int 3362) 100%float
       ∧ approx (humidity rd) (inject_Z 4550 / 100)
       ∧ approx (temp_c rd) (inject_Z 440 / 20)
       ∧ approx (temp_f rd) (inject_Z 1124 / 20)
       ∧ approx (dewpoint_c rd) (inject_Z 1890 / 100)
       ∧ approx (dewpoint_f rd) (inject_Z 3362 / 100).
Proof.
  split.
  - unfold u16. lia.
  - apply (proj1 decode_scaled_registers); unfold u16; lia.
Defined.

(** C2: five unsigned 16-bit registers whose first is at most 1000 decode
    to the raw register values cast to float, unscaled: each field is
    [float(register)], which denotes the register's value exactly.
    Registers [45, 22, 72, 19, 66] decode to 45.0, 22.0, 72.0, 19.0, 66.0
    and spread 3.0. *)
Theorem decode_unscaled_registers :
  (∀ r0 r1 r2 r3 r4 : Z,
     u16 r0 → u16 r1 → u16 r2 → u16 r3 → u16 r4 → r0 <= 1000 →
     ∃ rd, decode [r0; r1; r2; r3; r4] = Ret rd
       ∧ humidity rd = float_of_int r0
       ∧ temp_c rd = float_of_int r1
       ∧ temp_f rd = float_of_int r2
       ∧ dewpoint_c rd = float_of_int r3
       ∧ dewpoint_f rd = float_of_int r4
       ∧ exact (humidity rd) (inject_Z r0)
       ∧ exact (temp_c rd) (inject_Z r1)
       ∧ exact (temp_f rd) (inject_Z r2)
       ∧ exact (dewpoint_c rd) (inject_Z r3)
       ∧ exact (dewpoint_f rd) (inject_Z r4))
  ∧ decode [45; 22; 72; 19; 66] =
    Ret (Reading 45%float 22%float 72%float 19%float 66%float 3%float).
Proof.
  split.
  - intros r0 r1 r2 r3 r4 H0 H1 H2 H3 H4 Hle.
    rewrite decode_five.
    apply Z.ltb_ge in Hle. rewrite Hle.
    eexists. split; [reflexivity|].
    cbn [humidity temp_c temp_f dewpoint_c dewpoint_f].
    repeat split; auto using float_of_int_exact.
  - vm_compute. reflexivity.
Qed.

Lemma decode_unscaled_registers_witness :
  (u16 45 ∧ u16 22 ∧ u16 72 ∧ u16 19 ∧ u16 66 ∧ 45 <= 1000)
  ∧ ∃ rd, decode [45; 22; 72; 19; 66] = Ret rd
       ∧ humidity rd = float_of_int 45
       ∧ temp_c rd = float_of_int 22
       ∧ temp_f rd = float_of_int 72
       ∧ dewpoint_c rd = float_of_int 19
       ∧ dewpoint_f rd = float_of_int 66
       ∧ exact (humidity rd) (inject_Z 45)
       ∧ exact (temp_c rd) (inject_Z 22)
       ∧ exact (temp_f rd) (inject_Z 72)
       ∧ exact (dewpoint_c rd) (inject_Z 19)
       ∧ exact (dewpoint_f rd) (inject_Z 66).
Proof.
  split.
  - unfold u16. lia.
  - apply (proj1 decode_unscaled_registers); unfold u16; lia.
Defined.

(** C8: the decoder is total on well-formed input: exactly five unsigned
    16-bit registers always decode to a Reading; no index is out of range
    and no division fails, so no exception is raised. *)
Theorem decode_total (regs : list Z) :
  length regs = 5%nat → Forall u16 regs →
  (∃ rd, decode regs = Ret rd) ∧ (∀ msg, decode regs ≠ Raise msg).
Proof.
  intros Hlen _.
  destruct (five_registers regs Hlen) as (r0 & r1 & r2 & r3 & r4 & ->).
  rewrite decode_five. split; [eauto|]. intros msg. discriminate.
Qed.

Lemma decode_total_witness :
  (length [4550; 440; 1124; 1890; 3362] = 5%nat
   ∧ Forall u16 [4550; 440; 1124; 1890; 3362])
  ∧ (∃ rd, decode [4550; 440; 1124; 1890; 3362] = Ret rd)
  ∧ (∀ msg, decode [4550; 440; 1124; 1890; 3362] ≠ Raise msg).
Proof.
  assert (Hwf : Forall u16 [4550; 440; 1124; 1890; 3362])
    by (repeat constructor; unfold u16; lia).
  split; [split; [reflexivity | exact Hwf]|].
  exact (decode_total [4550; 440; 1124; 1890; 3362] eq_refl Hwf).
Defined.

(** ** Subtraction of finite floats

    IEEE 754 rounding of a non-negative mantissa never yields NaN; the
    lemmas follow the definitions of [SpecFloat]. *)

Lemma shr_1_nonneg (mrs : shr_record) :
  0 <= shr_m mrs → 0 <= shr_m (shr_1 mrs).
Proof.
  destruct mrs as [m r s]. cbn.
  destruct m as [|[p|p|]|[p|p|]]; cbn; lia.
Qed.

Lemma iter_shr_1_nonneg (p : positive) (mrs : shr_record) :
  0 <= shr_m mrs → 0 <= shr_m (SpecFloat.iter_pos shr_1 p mrs).
Proof.
  revert mrs. induction p as [p IH|p IH|]; intros mrs Hm; cbn.
  - by apply IH, IH, shr_1_nonneg.
  - by apply IH, IH.
  - by apply shr_1_nonneg.
Qed.

Lemma shr_fexp_nonneg (m e : Z) (l : location) :
  0 <= m → 0 <= shr_m (shr_fexp prec emax m e l).1.
Proof.
  intros Hm. unfold shr_fexp, shr.
  assert (Hrec : 0 <= shr_m (shr_record_of_loc m l))
    by (by destruct l as [|[]]).
  destruct (fexp prec emax (Zdigits2 m + e) - e); cbn [fst]; try done.
  by apply iter_shr_1_nonneg.
Qed.

Lemma round_nearest_even_nonneg (m : Z) (l : location) :
  0 <= m → 0 <= round_nearest_even m l.
Proof.
  intros Hm. destruct l as [|[]]; cbn; try lia.
  destruct (Z.even m); lia.
Qed.

Lemma binary_round_aux_not_nan (sx : bool) (mx ex : Z) (lx : location) :
  0 <= mx → binary_round_aux prec emax sx mx ex lx ≠ S754_nan.
Proof.
  intros Hm. unfold binary_round_aux.
  pose proof (shr_fexp_nonneg mx ex lx Hm) as H1.
  destruct (shr_fexp prec emax mx ex lx) as [mrs' e']. cbn [fst] in H1.
  pose proof (shr_fexp_nonneg
                (round_nearest_even (shr_m mrs') (loc_of_shr_record mrs'))
                e' loc_Exact
                (round_nearest_even_nonneg _ _ H1)) as H2.
  destruct (shr_fexp prec emax _ e' loc_Exact) as [mrs'' e''].
  cbn [fst] in H2.
  destruct (shr_m mrs'') as [|m|m]; [done| |lia].
  by destruct (e'' <=? emax - prec).
Qed.

Lemma binary_normalize_not_nan (m e : Z) (szero : bool) :
  binary_normalize prec emax m e szero ≠ S754_nan.
Proof.
  unfold binary_normalize, binary_round. destruct m as [|m|m]; [done| |].
  - destruct (shl_align _ _ _) as [mz ez].
    by apply binary_round_aux_not_nan.
  - destruct (shl_align _ _ _) as [mz ez].
    by apply binary_round_aux_not_nan.
Qed.

Lemma SFsub_not_nan (x y : spec_float) :
  SF_finite x = true → SF_finite y = true →
  SFsub prec emax x y ≠ S754_nan.
Proof.
  destruct x as [sx|sx| |sx mx ex], y as [sy|sy| |sy my ey];
    try discriminate; intros _ _; cbn; try done.
  - by destruct sx, sy.
  - apply binary_normalize_not_nan.
Qed.

Lemma SFeqb_refl (x : spec_float) : x ≠ S754_nan → SFeqb x x = true.
Proof.
  destruct x as [s|s| |s m e]; intros Hx; try done.
  - by destruct s.
  - unfold SFeqb, SFcompare. rewrite Z.compare_refl.
    change (Pos.compare_cont Eq m m) with (Pos.compare m m).
    rewrite Pos.compare_refl. by destruct s.
Qed.

(** The difference of two finite floats is not NaN, so Python's [==]
    holds between it and itself. *)
Lemma sub_eqb_refl (x y : float) :
  SF_finite (Prim2SF x) = true → SF_finite (Prim2SF y) = true →
  PrimFloat.eqb (PrimFloat.sub x y) (PrimFloat.sub x y) = true.
Proof.
  intros Hx Hy. rewrite FloatAxioms.eqb_spec, FloatAxioms.sub_spec.
  by apply SFeqb_refl, SFsub_not_nan.
Qed.

(** Every decoded field is a finite float. *)
Definition decoded_fields_finite (r : Z) : bool :=
  SF_finite (Prim2SF (float_of_int r))
  && SF_finite (Prim2SF (PrimFloat.div (float_of_int r) 20%float))
  && SF_finite (Prim2SF (PrimFloat.div (float_of_int r) 100%float)).

Lemma decoded_fields_are_finite (r : Z) :
  u16 r → decoded_fields_finite r = true.
Proof. revert r. apply u16_forall. vm_compute. reflexivity. Qed.

(** Whatever the input, a decode that succeeds went through the spread
    computation. *)
Lemma decode_spread (regs : list Z) (rd : reading) :
  decode regs = Ret rd →
  dewpoint_spread rd = PrimFloat.sub (temp_c rd) (dewpoint_c rd).
Proof.
  unfold decode. intros Hdec.
  destruct (py_index regs 0) as [r0|]; [|discriminate Hdec].
  cbn [mbind outcome_bind] in Hdec.
  match type of Hdec with
  | ?scaled ≫= _ = _ =>
      destruct scaled as [[[[[h tc] tf] dc] df]|]; [|discriminate Hdec]
  end.
  cbn in Hdec. injection Hdec as <-. reflexivity.
Qed.

(** C9: in every Reading a successful decode produces, from either
    scaling branch, [dewpoint_spread] is the float [temp_c - dewpoint_c]
    of that same Reading: it is computed from the decoded (scaled or
    cast) floats, registers that decode to the same temperature and dew
    point give the same spread, and on unsigned 16-bit registers Python's
    [dewpoint_spread == temp_c - dewpoint_c] is true (the difference is
    not NaN). *)
Theorem spread_is_temp_minus_dewpoint :
  (∀ regs rd, decode regs = Ret rd →
     dewpoint_spread rd = PrimFloat.sub (temp_c rd) (dewpoint_c rd))
  ∧ (∀ r0 r1 r2 r3 r4,
       ∃ rd, decode [r0; r1; r2; r3; r4] = Ret rd
         ∧ dewpoint_spread rd =
           if 1000 <? r0
           then PrimFloat.sub (PrimFloat.div (float_of_int r1) 20%float)
                              (PrimFloat.div (float_of_int r3) 100%float)
           else PrimFloat.sub (float_of_int r1) (float_of_int r3))
  ∧ (∀ regs regs' rd rd',
       decode regs = Ret rd → decode regs' = Ret rd' →
       temp_c rd = temp_c rd' → dewpoint_c rd = dewpoint_c rd' →
       dewpoint_spread rd = dewpoint_spread rd')
  ∧ (∀ r0 r1 r2 r3 r4 rd,
       u16 r1 → u16 r3 → decode [r0; r1; r2; r3; r4] = Ret rd →
       PrimFloat.eqb (dewpoint_spread rd)
                     (PrimFloat.sub (temp_c rd) (dewpoint_c rd)) = true).
Proof.
  split; [exact decode_spread|]. split; [|split].
  - intros r0 r1 r2 r3 r4. rewrite decode_five.
    eexists. split; [reflexivity|]. by destruct (1000 <? r0).
  - intros regs regs' rd rd' Hrd Hrd' Ht Hd.
    rewrite (decode_spread _ _ Hrd), (decode_spread _ _ Hrd'), Ht, Hd.
    reflexivity.
  - intros r0 r1 r2 r3 r4 rd H1 H3 Hdec.
    rewrite (decode_spread _ _ Hdec).
    pose proof (decoded_fields_are_finite r1 H1) as Hf1.
    pose proof (decoded_fields_are_finite r3 H3) as Hf3.
    unfold decoded_fields_finite in Hf1, Hf3.
    apply andb_true_iff in Hf1 as [Hf1 _].
    apply andb_true_iff in Hf1 as [Hcast1 Hdiv1].
    apply andb_true_iff in Hf3 as [Hf3 Hdiv3].
    apply andb_true_iff in Hf3 as [Hcast3 _].
    rewrite decode_five in Hdec. injection Hdec as <-.
    destruct (1000 <? r0); cbn [temp_c dewpoint_c]; by apply sub_eqb_refl.
Qed.

Lemma spread_is_temp_minus_dewpoint_witness :
  decode [4550; 440; 1124; 1890; 3362] =
    Ret (Reading 45.5%float 22%float 56.2%float 18.9%float 33.62%float
                 3.1000000000000014%float)
  ∧ 3.1000000000000014%float = PrimFloat.sub 22%float 18.9%float.
Proof.
  assert (Hdec : decode [4550; 440; 1124; 1890; 3362] =
    Ret (Reading 45.5%float 22%float 56.2%float 18.9%float 33.62%float
                 3.1000000000000014%float)) by (vm_compute; reflexivity).
  split; [exact Hdec|].
  exact (proj1 spread_is_temp_minus_dewpoint _ _ Hdec).
Defined.

(** C10: in the scaled branch (first register above 1000) the decoded
    humidity [h] satisfies Python's [10.0 < h] and [h <= 655.35]; so a
    decoded humidity with [h <= 10.0] only comes from the unscaled
    branch (first register at most 1000). *)
Theorem scaled_humidity_range :
  (∀ r0 r1 r2 r3 r4 : Z,
     u16 r0 → u16 r1 → u16 r2 → u16 r3 → u16 r4 → 1000 < r0 →
     ∃ rd, decode [r0; r1; r2; r3; r4] = Ret rd
       ∧ PrimFloat.ltb 10%float (humidity rd) = true
       ∧ PrimFloat.leb (humidity rd) 655.35%float = true)
  ∧ (∀ r0 r1 r2 r3 r4 rd,
       u16 r0 → u16 r1 → u16 r2 → u16 r3 → u16 r4 →
       decode [r0; r1; r2; r3; r4] = Ret rd →
       PrimFloat.leb (humidity rd) 10%float = true →
       r0 <= 1000 ∧ humidity rd = float_of_int r0).
Proof.
  split.
  - intros r0 r1 r2 r3 r4 H0 _ _ _ _ Hgt.
    pose proof (scaled_humidity_bounds r0 H0 Hgt) as Hb.
    unfold scaled_humidity_in_range in Hb. cbn zeta in Hb.
    apply andb_true_iff in Hb as [Hb _].
    apply andb_true_iff in Hb as [Hlt Hle].
    rewrite decode_five. apply Z.ltb_lt in Hgt. rewrite Hgt. cbn zeta.
    eexists. split; [reflexivity|]. cbn [humidity]. by split.
  - intros r0 r1 r2 r3 r4 rd H0 _ _ _ _ Hdec Hle.
    rewrite decode_five in Hdec.
    destruct (Z.ltb_spec 1000 r0) as [Hgt|Hsmall].
    + exfalso. cbn zeta in Hdec. injection Hdec as <-. cbn [humidity] in Hle.
      pose proof (scaled_humidity_bounds r0 H0 Hgt) as Hb.
      unfold scaled_humidity_in_range in Hb. cbn zeta in Hb.
      apply andb_true_iff in Hb as [_ Hb].
      rewrite Hle in Hb. discriminate Hb.
    + injection Hdec as <-. by split.
Qed.

Lemma scaled_humidity_range_witness :
  (u16 1001 ∧ u16 0 ∧ 1000 < 1001)
  ∧ ∃ rd, decode [1001; 0; 0; 0; 0] = Ret rd
       ∧ PrimFloat.ltb 10%float (humidity rd) = true
       ∧ PrimFloat.leb (humidity rd) 655.35%float = true.
Proof.
  split.
  - unfold u16. lia.
  - apply (proj1 scaled_humidity_range); unfold u16; lia.
Defined.

(** ** One iteration of the acquisition loop *)

(** The actions of an iteration, by what the outside world does. *)
Section CycleActions.
Variable env : cycle_env.

Let read_call : action := Call (ReadHoldingRegisters 0 5 MODBUS_ID).
Let set_status (tag : string) : action := SetItem "status" (VStr tag).

Lemma actions_connect_failed :
  env_connect env = Ret false →
  cycle_actions env = [Call Connect; set_status "Connection Failed"].
Proof. unfold cycle_actions, read_cycle. by intros ->. Qed.

Lemma actions_fault_in_connect msg :
  env_connect env = Raise msg →
  cycle_actions env = [Call Connect; set_status ("Error: " +:+ msg)].
Proof. unfold cycle_actions, read_cycle. by intros ->. Qed.

Lemma actions_fault_in_read msg :
  env_connect env = Ret true → env_read env = Raise msg →
  cycle_actions env =
    [Call Connect; read_call; set_status ("Error: " +:+ msg)].
Proof. unfold cycle_actions, read_cycle. by intros -> ->. Qed.

Lemma actions_modbus_error res :
  env_connect env = Ret true → env_read env = Ret res →
  isError res = true → env_close env = Ret tt →
  cycle_actions env =
    [Call Connect; read_call; set_status "Modbus Error"; Call Close].
Proof.
  unfold cycle_actions, read_cycle. intros -> -> Herr ->. cbn.
  by rewrite Herr.
Qed.

Lemma actions_fault_in_close_after_modbus_error res msg :
  env_connect env = Ret true → env_read env = Ret res →
  isError res = true → env_close env = Raise msg →
  cycle_actions env =
    [Call Connect; read_call; set_status "Modbus Error"; Call Close;
     set_status ("Error: " +:+ msg)].
Proof.
  unfold cycle_actions, read_cycle. intros -> -> Herr ->. cbn.
  by rewrite Herr.
Qed.

Lemma actions_fault_in_decode res msg :
  env_connect env = Ret true → env_read env = Ret res →
  isError res = false → decode (registers res) = Raise msg →
  cycle_actions env =
    [Call Connect; read_call; set_status ("Error: " +:+ msg)].
Proof.
  unfold cycle_actions, read_cycle. intros -> -> Herr Hdec. cbn.
  by rewrite Herr, Hdec.
Qed.

Lemma actions_online res rd :
  env_connect env = Ret true → env_read env = Ret res →
  isError res = false → decode (registers res) = Ret rd →
  env_close env = Ret tt →
  cycle_actions env =
    [Call Connect; read_call;
     Rebind (online_dict rd (env_now env) (registers res)); Call Close].
Proof.
  unfold cycle_actions, read_cycle. intros -> -> Herr Hdec ->. cbn.
  by rewrite Herr, Hdec.
Qed.

Lemma actions_fault_in_close_after_online res rd msg :
  env_connect env = Ret true → env_read env = Ret res →
  isError res = false → decode (registers res) = Ret rd →
  env_close env = Raise msg →
  cycle_actions env =
    [Call Connect; read_call;
     Rebind (online_dict rd (env_now env) (registers res)); Call Close;
     set_status ("Error: " +:+ msg)].
Proof.
  unfold cycle_actions, read_cycle. intros -> -> Herr Hdec ->. cbn.
  by rewrite Herr, Hdec.
Qed.
End CycleActions.

(** Every iteration either fails in one of the ways of [cycle_failure]
    or publishes a Reading. *)
Lemma failure_iff_no_publish (env : cycle_env) :
  publishes env = false ↔ ∃ tag, cycle_failure env tag.
Proof.
  destruct env as [conn rd now cl]. unfold publishes. split.
  - intros Hpub.
    destruct conn as [[|]|msg].
    + destruct rd as [[err regs]|msg].
      * destruct err.
        -- destruct cl as [[]|msg];
             eauto using modbus_error, fault_in_close_after_modbus_error.
        -- destruct (decode regs) as [r|msg] eqn:Hdec;
             [|eauto using fault_in_decode].
           exfalso. destruct cl as [[]|msg].
           ++ erewrite actions_online in Hpub; eauto. discriminate Hpub.
           ++ erewrite actions_fault_in_close_after_online in Hpub; eauto.
              discriminate Hpub.
      * eauto using fault_in_read.
    + eauto using connect_failed.
    + eauto using fault_in_connect.
  - intros [tag Hfail]. destruct Hfail.
    + by erewrite actions_connect_failed.
    + by erewrite actions_modbus_error.
    + by erewrite actions_fault_in_connect.
    + by erewrite actions_fault_in_read.
    + by erewrite actions_fault_in_decode.
    + by erewrite actions_fault_in_close_after_modbus_error.
Qed.

(** A failed iteration stores the tag under ["status"] and touches no
    other key. *)
Lemma failed_iteration (d : dict) (env : cycle_env) (tag : string) :
  cycle_failure env tag →
  loop_iteration d env !! "status" = Some (VStr tag)
  ∧ ∀ k, k ≠ "status" → loop_iteration d env !! k = d !! k.
Proof.
  intros Hfail. unfold loop_iteration. destruct Hfail.
  - erewrite actions_connect_failed by eassumption. cbn.
    split; [apply lookup_insert_eq|]. intros k Hk. by apply lookup_insert_ne.
  - erewrite actions_modbus_error by eassumption. cbn.
    split; [apply lookup_insert_eq|]. intros k Hk. by apply lookup_insert_ne.
  - erewrite actions_fault_in_connect by eassumption. cbn [foldl apply_action].
    split; [apply lookup_insert_eq|]. intros k Hk. by apply lookup_insert_ne.
  - erewrite actions_fault_in_read by eassumption. cbn [foldl apply_action].
    split; [apply lookup_insert_eq|]. intros k Hk. by apply lookup_insert_ne.
  - erewrite actions_fault_in_decode by eassumption. cbn [foldl apply_action].
    split; [apply lookup_insert_eq|]. intros k Hk. by apply lookup_insert_ne.
  - erewrite actions_fault_in_close_after_modbus_error by eassumption.
    cbn [foldl apply_action].
    split; [apply lookup_insert_eq|]. intros k Hk.
    by rewrite !lookup_insert_ne.
Qed.

(** C3, as amended: an iteration that fails before a Reading is published
    (connect refused, Modbus error response, or a fault raised by
    connect, by the register read, by the decoder, or by close after a
    Modbus error) leaves the failure tag ('Connection Failed',
    'Modbus Error' or 'Error: <message>') under ["status"] and every other
    key of [sensor_data] (humidity, temp_c, temp_f, dewpoint_c,
    dewpoint_f, dewpoint_spread, timestamp, raw_values) as it was before
    the iteration.  These are exactly the iterations that do not reach
    [sensor_data = {...}]. *)
Theorem failed_cycle_keeps_reading :
  (∀ env, publishes env = false ↔ ∃ tag, cycle_failure env tag)
  ∧ (∀ d env tag,
       cycle_failure env tag →
       loop_iteration d env !! "status" = Some (VStr tag)
       ∧ (∀ k, k ≠ "status" → loop_iteration d env !! k = d !! k)
       ∧ Forall (λ k, loop_iteration d env !! k = d !! k) reading_keys).
Proof.
  split; [exact failure_iff_no_publish|].
  intros d env tag Hfail.
  destruct (failed_iteration d env tag Hfail) as [Hstatus Hframe].
  split; [exact Hstatus|]. split; [exact Hframe|].
  unfold reading_keys. repeat constructor; by apply Hframe.
Qed.

Lemma failed_cycle_keeps_reading_witness :
  cycle_failure env_read_timeout "Error: timed out"
  ∧ loop_iteration (loop_iteration sensor_data_init env_online)
      env_read_timeout !! "status" = Some (VStr "Error: timed out")
  ∧ loop_iteration (loop_iteration sensor_data_init env_online)
      env_read_timeout !! "humidity" = Some (VFloat 45.5%float).
Proof.
  assert (Hfail : cycle_failure env_read_timeout "Error: timed out")
    by (by apply (fault_in_read env_read_timeout "timed out")).
  destruct (proj2 failed_cycle_keeps_reading
              (loop_iteration sensor_data_init env_online)
              env_read_timeout _ Hfail) as (Hstatus & Hframe & _).
  split; [exact Hfail|]. split; [exact Hstatus|].
  rewrite (Hframe "humidity") by discriminate.
  vm_compute. reflexivity.
Defined.

(** C3, as stated, fails when the fault is raised by [close()] after the
    Reading was published: the iteration ends in the [except] branch with
    status 'Error: socket error', and the Reading is the new one. *)
Lemma close_fault_after_publish :
  sensor_data_init !! "humidity" = Some (VFloat 0%float)
  ∧ cycle_actions env_close_fault =
      [Call Connect; Call (ReadHoldingRegisters 0 5 199);
       Rebind (online_dict
                 (Reading 45.5%float 22%float 56.2%float 18.9%float
                          33.62%float 3.1000000000000014%float)
                 sample_time sample_registers);
       Call Close; SetItem "status" (VStr "Error: socket error")]
  ∧ loop_iteration sensor_data_init env_close_fault !! "status"
      = Some (VStr "Error: socket error")
  ∧ loop_iteration sensor_data_init env_close_fault !! "humidity"
      = Some (VFloat 45.5%float)
  ∧ loop_iteration sensor_data_init env_close_fault !! "raw_values"
      = Some (VInts sample_registers).
Proof.
  split; [vm_compute; reflexivity|].
  split; [reflexivity|].
  repeat split; vm_compute; reflexivity.
Qed.

(** ** Runs of the process *)


Lemma final_cons (p : process) (e : event) (evs : list event) :
  final p (e :: evs) = final (step p e).1 evs.
Proof.
  unfold final. cbn [run].
  destruct (step p e) as [p' r]. cbn [fst]. by destruct (run p' evs).
Qed.

Lemma final_app (p : process) (evs1 evs2 : list event) :
  final p (evs1 ++ evs2) = final (final p evs1) evs2.
Proof.
  revert p. induction evs1 as [|e evs1 IH]; intros p; [done|].
  cbn [app]. by rewrite !final_cons, IH.
Qed.

(** Only an iteration of the acquisition loop writes [sensor_data]. *)
Lemma step_sensor_data (p : process) (e : event) :
  sensor_data (step p e).1 =
  match main_at p, e with
  | Exited, _ => sensor_data p
  | _, Acquire env => loop_iteration (sensor_data p) env
  | _, _ => sensor_data p
  end.
Proof. unfold step. by destruct (main_at p), e. Qed.

Lemma final_without_acquire (p : process) (evs : list event) :
  forallb (λ e, negb (is_acquire e)) evs = true →
  sensor_data (final p evs) = sensor_data p.
Proof.
  revert p. induction evs as [|e evs IH]; intros p Hno; [done|].
  cbn [forallb] in Hno. apply andb_true_iff in Hno as [He Hno].
  rewrite final_cons, (IH _ Hno), step_sensor_data.
  destruct (main_at p), e; try done; discriminate He.
Qed.

(** While the process lives, the acquisition thread's iterations act on
    [sensor_data] as [read_sensor_data] does. *)
Lemma final_acquire (p : process) (envs : list cycle_env) :
  main_at p ≠ Exited →
  sensor_data (final p (Acquire <$> envs))
    = read_sensor_data (sensor_data p) envs
  ∧ main_at (final p (Acquire <$> envs)) = main_at p.
Proof.
  revert p. induction envs as [|env envs IH]; intros p Halive; [done|].
  cbn [fmap list_fmap read_sensor_data foldl]. rewrite final_cons.
  assert (Hstep : (step p (Acquire env)).1 =
            Process (loop_iteration (sensor_data p) env) (shutdown_flag p)
                    (main_at p))
    by (unfold step; by destruct (main_at p)).
  rewrite Hstep. by apply (IH (Process _ _ _)).
Qed.

Lemma unpublished_iteration (d : dict) (env : cycle_env) (k : string) :
  publishes env = false → k ≠ "status" →
  loop_iteration d env !! k = d !! k.
Proof.
  intros Hpub Hk. apply failure_iff_no_publish in Hpub as [tag Hfail].
  by apply (failed_iteration d env tag Hfail).
Qed.

Lemma final_without_success (p : process) (evs : list event) (k : string) :
  Forall no_success evs → k ≠ "status" →
  sensor_data (final p evs) !! k = sensor_data p !! k.
Proof.
  intros Hall Hk. revert p.
  induction Hall as [|e evs He _ IH]; intros p; [done|].
  rewrite final_cons, IH, step_sensor_data.
  destruct (main_at p), e; try done; by apply unpublished_iteration.
Qed.

Lemma zero_reading_init : zero_reading sensor_data_init.
Proof. repeat split. Qed.

(** C5, as amended: a call to [get_data] made before any iteration has
    published a Reading returns the zero-valued Reading (numeric fields
    0.0, empty timestamp, raw_values [0,0,0,0,0]).  Its status is
    'Initializing...' while no iteration has run; once an iteration has
    failed, it is the failure tag of the latest iteration. *)
Theorem snapshot_before_first_success (evs : list event) :
  Forall no_success evs →
  zero_reading (get_data (final process_init evs))
  ∧ (forallb (λ e, negb (is_acquire e)) evs = true →
     get_data (final process_init evs) !! "status"
       = Some (VStr "Initializing..."))
  ∧ (∀ evs1 env evs2 tag,
       evs = evs1 ++ Acquire env :: evs2 →
       forallb (λ e, negb (is_acquire e)) evs2 = true →
       main_at (final process_init evs1) ≠ Exited →
       cycle_failure env tag →
       get_data (final process_init evs) !! "status" = Some (VStr tag)).
Proof.
  intros Hall. unfold get_data. split; [|split].
  - unfold zero_reading.
    rewrite !(final_without_success process_init evs) by done.
    exact zero_reading_init.
  - intros Hno. by rewrite final_without_acquire.
  - intros evs1 env evs2 tag -> Hno Halive Hfail.
    rewrite final_app, final_cons, final_without_acquire by done.
    rewrite step_sensor_data.
    destruct (main_at (final process_init evs1)); try done;
      by apply failed_iteration.
Qed.

Lemma snapshot_before_first_success_witness :
  Forall no_success [MainReady; Acquire env_unreachable; GetData]
  ∧ zero_reading
      (get_data (final process_init
                   [MainReady; Acquire env_unreachable; GetData]))
  ∧ get_data (final process_init
                [MainReady; Acquire env_unreachable; GetData]) !! "status"
      = Some (VStr "Connection Failed").
Proof.
  assert (Hall : Forall no_success
                   [MainReady; Acquire env_unreachable; GetData])
    by (repeat constructor).
  destruct (snapshot_before_first_success _ Hall) as (Hzero & _ & Hlast).
  split; [exact Hall|]. split; [exact Hzero|].
  apply (Hlast [MainReady] env_unreachable [GetData]); try done.
  by apply connect_failed.
Defined.

(** C5, as stated, fails once an iteration has failed: no iteration has
    succeeded, and [get_data] answers with status 'Connection Failed',
    not 'Initializing...'. *)
Lemma status_after_failed_first_cycle :
  publishes env_unreachable = false
  ∧ (run process_init [Acquire env_unreachable; GetData]).2 !! 1%nat
      = Some (GetData,
              Some (<["status" := VStr "Connection Failed"]>
                      sensor_data_init))
  ∧ get_data (final process_init [Acquire env_unreachable]) !! "status"
      = Some (VStr "Connection Failed")
  ∧ VStr "Connection Failed" ≠ VStr "Initializing...".
Proof.
  repeat split; try reflexivity. discriminate.
Qed.

(** ** The shutdown flag *)

(** [shutdown_flag = True] can only run while the main thread is still
    to enter, or inside, its final [try]; afterwards the main thread is
    in the handler or gone. *)
Lemma flag_assignments_bound (p : process) (evs : list event) :
  (flag_assignments p evs ≤
   match main_at p with Starting | KeepAlive => 1 | _ => 0 end)%nat.
Proof.
  revert p. induction evs as [|e evs IH]; intros p.
  - cbn. destruct (main_at p); lia.
  - cbn [flag_assignments]. specialize (IH (step p e).1).
    unfold assigns_flag, step in *.
    destruct (main_at p) eqn:Hat, e; cbn in IH |- *;
      rewrite ?Hat in IH; cbn in IH; lia.
Qed.

Lemma step_keeps_flag (p : process) (e : event) :
  shutdown_flag p = true → shutdown_flag (step p e).1 = true.
Proof. unfold step. by destruct (main_at p), e. Qed.

Lemma shutdown_responses (p : process) (evs : list event) (resp : dict) :
  shutdown_flag p = true →
  (GetShutdown, Some resp) ∈ (run p evs).2 →
  resp = {["status" := VStr "shutting_down"]}.
Proof.
  revert p. induction evs as [|e evs IH]; intros p Hflag Hin.
  - cbn in Hin. by apply elem_of_nil in Hin.
  - cbn [run] in Hin.
    pose proof (step_keeps_flag p e Hflag) as Hflag'.
    destruct (step p e) as [p' r] eqn:Hstep.
    destruct (run p' evs) as [q rs] eqn:Hrun. cbn [snd fst] in *.
    apply elem_of_cons in Hin as [Heq|Hin].
    + injection Heq as <- <-. unfold step in Hstep.
      destruct (main_at p); try discriminate Hstep;
        injection Hstep as _ <-; unfold shutdown; by rewrite Hflag.
    + apply (IH p' Hflag'). by rewrite Hrun.
Qed.

Lemma final_keeps_flag (p : process) (evs : list event) :
  shutdown_flag p = true → shutdown_flag (final p evs) = true.
Proof.
  revert p. induction evs as [|e evs IH]; intros p Hflag; [done|].
  rewrite final_cons. by apply IH, step_keeps_flag.
Qed.

(** The flag is set exactly when the assignment has run. *)
Lemma flag_iff_assigned (p : process) (evs : list event) :
  shutdown_flag p = false →
  shutdown_flag (final p evs) = true ↔ flag_assignments p evs = 1%nat.
Proof.
  revert p. induction evs as [|e evs IH]; intros p Hflag.
  - cbn. rewrite Hflag. split; discriminate.
  - rewrite final_cons. cbn [flag_assignments].
    destruct (assigns_flag p e) eqn:Hassign.
    + unfold assigns_flag in Hassign.
      destruct (main_at p) eqn:Hat; try discriminate Hassign.
      destruct e; try discriminate Hassign.
      pose proof (flag_assignments_bound (step p KeyboardInterrupt).1 evs)
        as Hb.
      assert (Hset : shutdown_flag (step p KeyboardInterrupt).1 = true)
        by (unfold step; by rewrite Hat).
      assert (Hgrace : main_at (step p KeyboardInterrupt).1 = GracePeriod)
        by (unfold step; by rewrite Hat).
      rewrite Hgrace in Hb.
      split; [lia|]. intros _. by apply final_keeps_flag.
    + cbn [Nat.add]. rewrite <- IH; [done|].
      unfold assigns_flag, step in *.
      destruct (main_at p), e; try done; discriminate Hassign.
Qed.

(** C6: [shutdown_flag] is false when the process starts; a run executes
    [shutdown_flag = True] at most once (in the [KeyboardInterrupt]
    handler of [main]), and no step resets it; so once the flag is set,
    every later [/shutdown] request is answered
    [{"status": "shutting_down"}], never [{"status": "running"}]. *)
Theorem shutdown_flag_latches :
  shutdown_flag process_init = false
  ∧ (∀ evs, (flag_assignments process_init evs ≤ 1)%nat)
  ∧ (∀ evs, shutdown_flag (final process_init evs) = true
            ↔ flag_assignments process_init evs = 1%nat)
  ∧ (∀ p e, shutdown_flag p = true → shutdown_flag (step p e).1 = true)
  ∧ (∀ p evs resp,
       shutdown_flag p = true →
       (GetShutdown, Some resp) ∈ (run p evs).2 →
       resp = {["status" := VStr "shutting_down"]}
       ∧ resp ≠ {["status" := VStr "running"]}).
Proof.
  split; [reflexivity|]. split; [|split; [|split]].
  - intros evs. apply (flag_assignments_bound process_init evs).
  - intros evs. by apply flag_iff_assigned.
  - exact step_keeps_flag.
  - intros p evs resp Hflag Hin.
    rewrite (shutdown_responses p evs resp Hflag Hin). split; [done|].
    intros Heq. apply (f_equal (λ d : dict, d !! "status")) in Heq.
    rewrite !lookup_singleton_eq in Heq. discriminate Heq.
Qed.

Lemma shutdown_flag_latches_witness :
  shutdown_flag (final process_init [MainReady; KeyboardInterrupt]) = true
  ∧ (GetShutdown, Some {["status" := VStr "shutting_down"]})
      ∈ (run (final process_init [MainReady; KeyboardInterrupt])
             [Acquire env_online; GetShutdown; GetData; GetShutdown]).2
  ∧ ({["status" := VStr "shutting_down"]} : dict)
      = {["status" := VStr "shutting_down"]}
  ∧ ({["status" := VStr "shutting_down"]} : dict)
      ≠ {["status" := VStr "running"]}.
Proof.
  assert (Hflag :
    shutdown_flag (final process_init [MainReady; KeyboardInterrupt]) = true)
    by reflexivity.
  assert (Hin :
    (GetShutdown, Some ({["status" := VStr "shutting_down"]} : dict))
      ∈ (run (final process_init [MainReady; KeyboardInterrupt])
             [Acquire env_online; GetShutdown; GetData; GetShutdown]).2).
  { cbn. apply elem_of_cons. right. apply elem_of_cons. by left. }
  split; [exact Hflag|]. split; [exact Hin|].
  exact (proj2 (proj2 (proj2 (proj2 shutdown_flag_latches))) _ _ _ Hflag Hin).
Defined.

(** ** Release of the connection *)

(** No call in a short, explicit list of calls is the one looked for. *)
Ltac not_called :=
  let H := fresh "Hin" in
  rewrite ?elem_of_cons, elem_of_nil; intros H;
  repeat (destruct H as [H|H]; [discriminate H|]); destruct H.

(** [close()] is called exactly in the iterations where [connect()]
    returned true and the read and the decoding raised no fault. *)
Lemma close_called_iff (env : cycle_env) :
  Close ∈ client_calls env ↔
  env_connect env = Ret true
  ∧ ∃ res, env_read env = Ret res
      ∧ (isError res = true ∨ ∃ rd, decode (registers res) = Ret rd).
Proof.
  destruct env as [conn rd now cl]. unfold client_calls.
  destruct conn as [[|]|msg].
  - destruct rd as [[err regs]|msg].
    + destruct err.
      * split.
        -- intros _. split; [done|]. eexists. split; [done|]. by left.
        -- intros _. destruct cl as [[]|msg];
             [erewrite actions_modbus_error by done
             |erewrite actions_fault_in_close_after_modbus_error by done];
             cbn; repeat constructor.
      * destruct (decode regs) as [r|msg] eqn:Hdec.
        -- split.
           ++ intros _. split; [done|]. eexists. split; [done|].
              right. by exists r.
           ++ intros _. destruct cl as [[]|msg];
                [erewrite actions_online by (cbn; eauto)
                |erewrite actions_fault_in_close_after_online
                   by (cbn; eauto)];
                cbn; repeat constructor.
        -- erewrite actions_fault_in_decode by (cbn; eauto). cbn. split.
           ++ not_called.
           ++ intros (_ & res & [= <-] & [|[r Hr]]); [done|].
              cbn in Hr. congruence.
    + erewrite actions_fault_in_read by done. cbn. split.
      * not_called.
      * by intros (_ & res & ? & _).
  - erewrite actions_connect_failed by done. cbn.
    split; [|by intros [? _]].
    not_called.
  - erewrite actions_fault_in_connect by done. cbn.
    split; [|by intros [? _]].
    not_called.
Qed.

(** C7 at its failing inputs: when [read_holding_registers] raises, or
    the decoder raises on a short response, the iteration goes from the
    fault straight to the [except] branch and makes no [close()] call;
    the iteration that reads successfully does close. *)
Theorem release_skipped_on_fault :
  client_calls env_read_timeout = [Connect; ReadHoldingRegisters 0 5 199]
  ∧ cycle_actions env_read_timeout =
      [Call Connect; Call (ReadHoldingRegisters 0 5 199);
       SetItem "status" (VStr "Error: timed out")]
  ∧ client_calls env_short_response =
      [Connect; ReadHoldingRegisters 0 5 199]
  ∧ cycle_actions env_short_response =
      [Call Connect; Call (ReadHoldingRegisters 0 5 199);
       SetItem "status" (VStr "Error: list index out of range")]
  ∧ client_calls env_online =
      [Connect; ReadHoldingRegisters 0 5 199; Close].
Proof. repeat split. Qed.

(** ** The snapshot store under concurrent requests *)

(** The shapes of the actions of an iteration: a client call, the
    rebinding to a fresh nine-key dictionary, or a store under
    ["status"]. *)
Lemma cycle_action_shape (env : cycle_env) (a : action) :
  a ∈ cycle_actions env →
  (∃ c, a = Call c)
  ∨ (∃ rd now raw, a = Rebind (online_dict rd now raw))
  ∨ (∃ tag, a = SetItem "status" (VStr tag)).
Proof.
  destruct env as [conn rd now cl].
  destruct conn as [[|]|msg].
  - destruct rd as [[err regs]|msg].
    + destruct err.
      * destruct cl as [[]|msg];
          [erewrite actions_modbus_error by done
          |erewrite actions_fault_in_close_after_modbus_error by done];
          rewrite ?elem_of_cons, elem_of_nil; intros Hin;
          repeat (destruct Hin as [->|Hin]; [eauto 6|]); destruct Hin.
      * destruct (decode regs) as [r|msg] eqn:Hdec.
        -- destruct cl as [[]|msg];
             [erewrite actions_online by (cbn; eauto)
             |erewrite actions_fault_in_close_after_online by (cbn; eauto)];
             rewrite ?elem_of_cons, elem_of_nil; intros Hin;
             repeat (destruct Hin as [->|Hin]; [eauto 6|]); destruct Hin.
        -- erewrite actions_fault_in_decode by (cbn; eauto).
           rewrite ?elem_of_cons, elem_of_nil; intros Hin;
             repeat (destruct Hin as [->|Hin]; [eauto 6|]); destruct Hin.
    + erewrite actions_fault_in_read by done.
      rewrite ?elem_of_cons, elem_of_nil; intros Hin;
        repeat (destruct Hin as [->|Hin]; [eauto 6|]); destruct Hin.
  - erewrite actions_connect_failed by done.
    rewrite ?elem_of_cons, elem_of_nil; intros Hin;
      repeat (destruct Hin as [->|Hin]; [eauto 6|]); destruct Hin.
  - erewrite actions_fault_in_connect by done.
    rewrite ?elem_of_cons, elem_of_nil; intros Hin;
      repeat (destruct Hin as [->|Hin]; [eauto 6|]); destruct Hin.
Qed.

Lemma online_dict_keys (rd : reading) (now : string) (raw : list Z) :
  dom (online_dict rd now raw) = (list_to_set snapshot_keys : gset string).
Proof. unfold online_dict. by rewrite dom_list_to_map_L. Qed.

Lemma sensor_data_init_keys :
  dom sensor_data_init = (list_to_set snapshot_keys : gset string).
Proof. unfold sensor_data_init. by rewrite dom_list_to_map_L. Qed.

Lemma status_in_snapshot (d : dict) :
  dom d = (list_to_set snapshot_keys : gset string) →
  is_Some (d !! "status").
Proof.
  intros Hdom. apply elem_of_dom. rewrite Hdom.
  apply elem_of_list_to_set. unfold snapshot_keys. repeat constructor.
Qed.

(** The heap model agrees with the sequential one: what the global name
    denotes after an action is [apply_action] of what it denoted. *)
Lemma mem_apply_wf (m : memory) (a : action) :
  mem_wf m → mem_wf (mem_apply m a).
Proof.
  unfold mem_wf. destruct a as [c|d|k v]; cbn; [done| |].
  - rewrite length_app. cbn. lia.
  - by rewrite length_alter.
Qed.

Lemma deref_mem_apply (m : memory) (a : action) :
  mem_wf m → deref (mem_apply m a) = apply_action (deref m) a.
Proof.
  unfold mem_wf, deref. intros Hwf. destruct a as [c|d|k v]; cbn; [done| |].
  - by rewrite list_lookup_middle.
  - rewrite list_lookup_alter_eq.
    destruct (lookup_lt_is_Some_2 _ _ Hwf) as [d Hd]. by rewrite Hd.
Qed.

Lemma run_schedule_snoc (s : memory * request) (ts : list tick) (t : tick) :
  run_schedule s (ts ++ [t]) = tick_step (run_schedule s ts) t.
Proof. unfold run_schedule. by rewrite foldl_app. Qed.

Lemma run_schedule_app (s : memory * request) (ts1 ts2 : list tick) :
  run_schedule s (ts1 ++ ts2) = run_schedule (run_schedule s ts1) ts2.
Proof. unfold run_schedule. by rewrite foldl_app. Qed.

Lemma writes_snoc (ts : list tick) (t : tick) :
  writes (ts ++ [t]) =
  writes ts ++ match t with Writer a => [a] | _ => [] end.
Proof. unfold writes. rewrite omap_app. by destruct t. Qed.

Lemma tick_step_memory (s : memory * request) (t : tick) :
  (tick_step s t).1 =
  match t with Writer a => mem_apply s.1 a | _ => s.1 end.
Proof.
  destruct t as [a| |k]; cbn; try done.
  destruct (req_ref s.2); [|done]. by destruct (heap s.1 !! _ ≫= _).
Qed.

Lemma run_schedule_wf (s : memory * request) (ts : list tick) :
  mem_wf s.1 → mem_wf (run_schedule s ts).1.
Proof.
  intros Hwf. induction ts as [|t ts IH] using rev_ind; [done|].
  rewrite run_schedule_snoc, tick_step_memory.
  destruct t; try done. by apply mem_apply_wf.
Qed.

(** The store at any instant of a schedule is the sequential semantics of
    the writer's actions so far; the requests do not change it. *)
Lemma deref_run_schedule (s : memory * request) (ts : list tick) :
  mem_wf s.1 →
  deref (run_schedule s ts).1 = foldl apply_action (deref s.1) (writes ts).
Proof.
  intros Hwf. induction ts as [|t ts IH] using rev_ind; [done|].
  rewrite run_schedule_snoc, tick_step_memory, writes_snoc, foldl_app.
  destruct t as [a| |k]; cbn [foldl]; try done.
  rewrite deref_mem_apply by (by apply run_schedule_wf). by rewrite IH.
Qed.

Lemma published_during_snoc (s : memory * request) (ts : list tick)
  (t : tick) (d : dict) :
  published_during s ts d → published_during s (ts ++ [t]) d.
Proof.
  intros (ts1 & ts2 & -> & Hd). exists ts1, (ts2 ++ [t]).
  by rewrite app_assoc.
Qed.

Lemma published_now (s : memory * request) (ts : list tick) :
  published_during s ts (deref (run_schedule s ts).1).
Proof. exists ts, []. by rewrite app_nil_r. Qed.

(** The writer's actions keep every dictionary on the heap a nine-key
    snapshot. *)
Lemma heap_keys_writer (m : memory) (a : action) :
  (∃ env, a ∈ cycle_actions env) →
  heap_keys m → heap_keys (mem_apply m a).
Proof.
  intros [env Hin] Hkeys.
  destruct (cycle_action_shape env a Hin)
    as [[c ->]|[(rd & now & raw & ->)|[tag ->]]]; cbn; [done| |].
  - intros i d Hi. cbn in Hi.
    apply lookup_app_Some in Hi as [Hi|[_ Hi]]; [by eapply Hkeys|].
    apply list_lookup_singleton_Some in Hi as [_ <-].
    apply online_dict_keys.
  - intros i d Hi. cbn in Hi.
    destruct (decide (sensor_ref m = i)) as [<-|Hne].
    + rewrite list_lookup_alter_eq in Hi.
      destruct (heap m !! sensor_ref m) as [d0|] eqn:Hd0; [|done].
      cbn in Hi. injection Hi as <-.
      rewrite dom_insert_lookup_L; [by eapply Hkeys|].
      eapply status_in_snapshot, Hkeys, Hd0.
    + rewrite list_lookup_alter_ne in Hi by done. by eapply Hkeys.
Qed.

(** One tick of the writer or of the request keeps the invariant. *)
Lemma request_inv_step (a : nat) (s0 : memory * request) (ts : list tick)
  (t : tick) :
  writer_tick t ∨ request_tick t →
  request_inv a s0 ts (run_schedule s0 ts) →
  request_inv a s0 (ts ++ [t]) (run_schedule s0 (ts ++ [t])).
Proof.
  intros Ht (Hwf & Hkeys & Href & da & snap & Hda & Hpda & Hpsnap & Hsub
             & Hagree & Hvisited & Hdom).
  pose proof (published_now s0 (ts ++ [t])) as Hnow.
  rewrite run_schedule_snoc in Hnow |- *.
  set (s := run_schedule s0 ts) in *.
  destruct t as [act| |k].
  - (* the writer *)
    destruct Ht as [Hact|[]].
    assert (Hvisited' : ∀ k, Visit k ∈ ts ++ [Writer act] →
              k ∈ snapshot_keys → is_Some (req_json s.2 !! k)).
    { intros k Hin. apply Hvisited.
      apply elem_of_app in Hin as [Hin|Hin]; [done|].
      by apply list_elem_of_singleton in Hin. }
    unfold request_inv. cbn [tick_step fst snd].
    split; [by apply mem_apply_wf|].
    split; [by apply heap_keys_writer|].
    split; [done|].
    destruct Hact as [env Hin].
    destruct (cycle_action_shape env act Hin)
      as [[c ->]|[(rd & now & raw & ->)|[tag ->]]]; cbn [mem_apply heap].
    + exists da, snap. eauto 10 using published_during_snoc.
    + exists da, snap. split.
      { rewrite lookup_app_l; [done|]. by eapply lookup_lt_Some. }
      eauto 10 using published_during_snoc.
    + destruct (decide (sensor_ref s.1 = a)) as [Heq|Hne].
      * exists (<["status" := VStr tag]> da), snap.
        split; [by rewrite Heq, list_lookup_alter_eq, Hda|].
        split.
        { cbn [tick_step fst] in Hnow.
          rewrite deref_mem_apply in Hnow by done.
          unfold deref in Hnow. by rewrite Heq, Hda in Hnow. }
        split; [by apply published_during_snoc|].
        split; [done|]. split; [|done].
        intros k Hk. rewrite lookup_insert_ne by done. by apply Hagree.
      * exists da, snap.
        split; [by rewrite list_lookup_alter_ne|].
        eauto 10 using published_during_snoc.
  - (* a second load is not part of the request *)
    by destruct Ht as [[]|[]].
  - (* the request visits key [k] *)
    clear Ht Hnow. unfold request_inv. cbn [tick_step].
    rewrite Href, Hda. cbn [mbind option_bind].
    assert (Hk : k ∈ snapshot_keys → is_Some (da !! k)).
    { intros Hin. apply elem_of_dom. rewrite (Hkeys a da Hda).
      by apply elem_of_list_to_set. }
    destruct (da !! k) as [v|] eqn:Hv; cbn [fst snd req_json req_ref].
    + split; [done|]. split; [done|]. split; [done|].
      destruct (decide (k = "status")) as [->|Hne].
      * exists da, da. split; [done|].
        split; [by apply published_during_snoc|].
        split; [by apply published_during_snoc|].
        split; [|split; [done|split; [|by eapply Hkeys]]].
        -- apply map_subseteq_spec. intros i x Hi.
           destruct (decide (i = "status")) as [->|Hi'].
           ++ rewrite lookup_insert_eq in Hi. by injection Hi as <-.
           ++ rewrite lookup_insert_ne in Hi by done.
              rewrite <- Hagree by done.
              by apply (lookup_weaken _ _ _ _ Hi).
        -- intros k' Hin Hk'. apply lookup_insert_is_Some.
           destruct (decide ("status" = k')) as [|Hne]; [by left|right].
           split; [done|]. apply Hvisited; [|done].
           apply elem_of_app in Hin as [Hin|Hin]; [done|].
           apply list_elem_of_singleton in Hin. by injection Hin as ->.
      * exists da, snap. split; [done|].
        split; [by apply published_during_snoc|].
        split; [by apply published_during_snoc|].
        split; [|split; [done|split; [|done]]].
        -- apply map_subseteq_spec. intros i x Hi.
           destruct (decide (i = k)) as [->|Hi'].
           ++ rewrite lookup_insert_eq in Hi. injection Hi as <-.
              by rewrite Hagree.
           ++ rewrite lookup_insert_ne in Hi by done.
              by apply (lookup_weaken _ _ _ _ Hi).
        -- intros k' Hin Hk'. apply lookup_insert_is_Some.
           destruct (decide (k = k')) as [|Hne']; [by left|right].
           split; [done|]. apply Hvisited; [|done].
           apply elem_of_app in Hin as [Hin|Hin]; [done|].
           apply list_elem_of_singleton in Hin. by injection Hin as ->.
    + split; [done|]. split; [done|]. split; [done|].
      exists da, snap. split; [done|].
      split; [by apply published_during_snoc|].
      split; [by apply published_during_snoc|].
      split; [done|]. split; [done|]. split; [|done].
      intros k' Hin Hk'.
      apply elem_of_app in Hin as [Hin|Hin]; [by apply Hvisited|].
      apply list_elem_of_singleton in Hin. injection Hin as <-.
      destruct (Hk Hk') as [? [=]].
Qed.

Lemma writes_app (ts1 ts2 : list tick) :
  writes (ts1 ++ ts2) = writes ts1 ++ writes ts2.
Proof. unfold writes. by rewrite omap_app. Qed.

(** Before the request starts, only the writer runs. *)
Lemma writer_prefix (pre : list tick) :
  Forall writer_tick pre →
  mem_wf (run_schedule (memory_init, request_init) pre).1
  ∧ heap_keys (run_schedule (memory_init, request_init) pre).1
  ∧ (run_schedule (memory_init, request_init) pre).2 = request_init.
Proof.
  induction pre as [|t pre IH] using rev_ind; intros Hpre.
  - split; [unfold mem_wf; cbn; lia|]. split; [|done].
    intros i d Hi. apply list_lookup_singleton_Some in Hi as [_ <-].
    apply sensor_data_init_keys.
  - apply Forall_app in Hpre as [Hpre Ht].
    rewrite Forall_singleton in Ht.
    destruct (IH Hpre) as (Hwf & Hkeys & Hreq).
    rewrite run_schedule_snoc. destruct t as [a| |k]; try done.
    cbn [tick_step fst snd].
    split; [by apply mem_apply_wf|].
    split; [apply heap_keys_writer; [exact Ht|exact Hkeys]|exact Hreq].
Qed.

(** A request that starts after [pre] keeps its invariant through any
    interleaving [mid] of its visits with the writer's actions. *)
Lemma request_inv_run (pre mid : list tick) :
  Forall writer_tick pre →
  Forall (λ t, writer_tick t ∨ request_tick t) mid →
  let s0 := run_schedule (memory_init, request_init) (pre ++ [Load]) in
  request_inv (sensor_ref s0.1) s0 mid (run_schedule s0 mid).
Proof.
  intros Hpre Hmid s0.
  destruct (writer_prefix pre Hpre) as (Hwf & Hkeys & Hreq).
  assert (Hs0 : s0 = ((run_schedule (memory_init, request_init) pre).1,
                      Request (Some (sensor_ref
                        (run_schedule (memory_init, request_init) pre).1)) ∅)).
  { unfold s0. rewrite run_schedule_snoc. cbn [tick_step]. by rewrite Hreq. }
  induction mid as [|t mid IH] using rev_ind.
  - rewrite Hs0. cbn [run_schedule foldl fst snd].
    split; [done|]. split; [done|]. split; [done|].
    destruct (lookup_lt_is_Some_2 _ _ Hwf) as [d Hd].
    assert (Hderef : deref (run_schedule (memory_init, request_init) pre).1 = d)
      by (unfold deref; by rewrite Hd).
    exists d, d. split; [done|].
    assert (Hpub : published_during
              ((run_schedule (memory_init, request_init) pre).1,
               Request (Some (sensor_ref
                 (run_schedule (memory_init, request_init) pre).1)) ∅) [] d)
      by (by exists [], []).
    split; [done|]. split; [done|].
    split; [apply map_empty_subseteq|]. split; [done|].
    split; [|by eapply Hkeys].
    intros k Hin. by apply elem_of_nil in Hin.
  - apply Forall_app in Hmid as [Hmid Ht]. rewrite Forall_singleton in Ht.
    by apply request_inv_step, IH.
Qed.

(** C4: a [get_data] request running concurrently with the acquisition
    thread never returns a torn snapshot.  Whatever the interleaving of
    the writer's actions with the request's load of the global name and
    its visits of the keys, every item of the response comes from one and
    the same dictionary: [sensor_data] as the writer's actions had left
    it at one instant between the load and the end of the request.  A
    response that visited all nine keys is that dictionary: its Reading
    and its status were published together. *)
Theorem get_data_never_torn (pre mid : list tick) :
  Forall writer_tick pre →
  Forall (λ t, writer_tick t ∨ request_tick t) mid →
  ∃ mid1 mid2,
    mid = mid1 ++ mid2
    ∧ req_json (run_schedule (memory_init, request_init)
                  (pre ++ Load :: mid)).2
        ⊆ foldl apply_action sensor_data_init (writes (pre ++ mid1))
    ∧ ((∀ k, k ∈ snapshot_keys → Visit k ∈ mid) →
       req_json (run_schedule (memory_init, request_init)
                   (pre ++ Load :: mid)).2
         = foldl apply_action sensor_data_init (writes (pre ++ mid1))).
Proof.
  intros Hpre Hmid.
  destruct (request_inv_run pre mid Hpre Hmid)
    as (_ & _ & _ & da & snap & _ & _ & Hpub & Hsub & _ & Hvisited & Hdom).
  destruct Hpub as (mid1 & mid2 & Hsplit & Hsnap).
  rewrite <- run_schedule_app in Hsnap.
  rewrite deref_run_schedule in Hsnap by (unfold mem_wf; cbn; lia).
  rewrite !writes_app in Hsnap. cbn [writes omap] in Hsnap.
  rewrite app_nil_r, <- writes_app in Hsnap.
  change (deref (memory_init, request_init).1) with sensor_data_init in Hsnap.
  rewrite <- run_schedule_app, <- app_assoc in Hsub, Hvisited.
  cbn [app] in Hsub, Hvisited.
  exists mid1, mid2. split; [done|]. rewrite Hsnap. split; [done|].
  intros Hall. apply map_eq. intros k.
  destruct (snap !! k) as [v|] eqn:Hk.
  - assert (Hin : k ∈ snapshot_keys).
    { apply (elem_of_list_to_set (C := gset string)). rewrite <- Hdom.
      by apply elem_of_dom. }
    destruct (Hvisited k (Hall k Hin) Hin) as [w Hw].
    rewrite Hw. by rewrite <- (lookup_weaken _ _ _ _ Hw Hsub).
  - destruct (req_json _ !! k) as [w|] eqn:Hw; [|done].
    by rewrite (lookup_weaken _ _ _ _ Hw Hsub) in Hk.
Qed.

(** The actions of an iteration are writer ticks. *)
Lemma cycle_ticks (env : cycle_env) :
  Forall writer_tick (Writer <$> cycle_actions env).
Proof.
  apply Forall_fmap, Forall_forall. intros a Hin. by exists env.
Qed.

Lemma get_data_never_torn_witness :
  let pre := Writer <$> cycle_actions env_online in
  let mid := [Visit "humidity"; Visit "timestamp";
              Writer (Call Connect);
              Writer (SetItem "status" (VStr "Connection Failed"));
              Visit "status"; Visit "raw_values"] in
  (Forall writer_tick pre
   ∧ Forall (λ t, writer_tick t ∨ request_tick t) mid)
  ∧ ∃ mid1 mid2,
      mid = mid1 ++ mid2
      ∧ req_json (run_schedule (memory_init, request_init)
                    (pre ++ Load :: mid)).2
          ⊆ foldl apply_action sensor_data_init (writes (pre ++ mid1))
      ∧ ((∀ k, k ∈ snapshot_keys → Visit k ∈ mid) →
         req_json (run_schedule (memory_init, request_init)
                     (pre ++ Load :: mid)).2
           = foldl apply_action sensor_data_init (writes (pre ++ mid1))).
Proof.
  intros pre mid.
  assert (Hpre : Forall writer_tick pre) by apply cycle_ticks.
  assert (Hfail : ∀ a, a ∈ cycle_actions env_unreachable →
                       writer_tick (Writer a) ∨ request_tick (Writer a))
    by (intros a Ha; left; by exists env_unreachable).
  assert (Hmid : Forall (λ t, writer_tick t ∨ request_tick t) mid).
  { unfold mid.
    repeat (apply Forall_cons_2;
            [first [right; exact I | apply Hfail; cbn; repeat constructor]|]).
    apply Forall_nil_2. }
  split; [by split|].
  exact (get_data_never_torn pre mid Hpre Hmid).
Defined.

(** What the request of the schedule above returns: the items of
    [sensor_data] as the failed iteration left it, that is, the Reading
    it kept and its tag 'Connection Failed'; the status 'Online' that
    the dictionary held when the request started is not mixed in. *)
Example response_during_failed_cycle :
  req_json (run_schedule (memory_init, request_init)
    ((Writer <$> cycle_actions env_online)
     ++ Load :: [Visit "humidity"; Visit "timestamp";
                 Writer (Call Connect);
                 Writer (SetItem "status" (VStr "Connection Failed"));
                 Visit "status"; Visit "raw_values"])).2
  = list_to_map [("humidity", VFloat 45.5%float);
                 ("timestamp", VStr sample_time);
                 ("status", VStr "Connection Failed");
                 ("raw_values", VInts sample_registers)].
Proof. vm_compute. reflexivity. Qed.

(** * Further properties *)

(** ** The decoder on other inputs *)

(** The decoder needs five registers and looks at no more: a shorter
    list of unsigned 16-bit registers raises [IndexError] (whichever
    branch the first register selects), and registers after the fifth
    do not change the result. *)
Theorem decode_length_behaviour :
  (∀ regs, Forall u16 regs → (length regs < 5)%nat →
           decode regs = Raise "list index out of range")
  ∧ (∀ regs, Forall u16 regs →
             (∃ rd, decode regs = Ret rd) ↔ (5 ≤ length regs)%nat)
  ∧ (∀ regs, decode regs = decode (take 5 regs)).
Proof.
  assert (Hshort : ∀ regs, (length regs < 5)%nat →
                           decode regs = Raise "list index out of range").
  { intros regs Hlen.
    destruct regs as [|r0 [|r1 [|r2 [|r3 [|r4 regs]]]]];
      cbn in Hlen; try lia; unfold decode; cbn;
      try done; by destruct (1000 <? r0). }
  assert (Htake : ∀ regs, decode regs = decode (take 5 regs)).
  { intros regs.
    by destruct regs as [|r0 [|r1 [|r2 [|r3 [|r4 regs]]]]]. }
  split; [intros regs _; apply Hshort|]. split; [|exact Htake].
  intros regs _. split.
  - intros [rd Hrd].
    destruct (decide (5 ≤ length regs)%nat) as [|Hlt]; [done|].
    rewrite Hshort in Hrd by lia. discriminate Hrd.
  - intros Hlen. rewrite Htake.
    destruct regs as [|r0 [|r1 [|r2 [|r3 [|r4 regs]]]]];
      cbn in Hlen; try lia.
    cbn [take]. rewrite decode_five. eauto.
Qed.

Lemma decode_length_behaviour_witness :
  (Forall u16 [4550; 440] ∧ (length [4550; 440] < 5)%nat)
  ∧ decode [4550; 440] = Raise "list index out of range".
Proof.
  assert (Hwf : Forall u16 [4550; 440])
    by (repeat constructor; unfold u16; lia).
  assert (Hlen : (length [4550; 440] < 5)%nat) by (cbn; lia).
  split; [by split|].
  exact (proj1 decode_length_behaviour _ Hwf Hlen).
Defined.

Lemma fields_in_range (r : Z) : u16 r → field_in_range r = true.
Proof. revert r. apply u16_forall. vm_compute. reflexivity. Qed.

(** The registers are taken as unsigned: whatever the five 16-bit
    registers, the decoded humidity, temperatures and dew points are
    never negative (and at most 65535.0); a temperature or dew point
    below zero cannot be produced. *)
Theorem decoded_fields_nonnegative (r0 r1 r2 r3 r4 : Z) (rd : reading) :
  u16 r0 → u16 r1 → u16 r2 → u16 r3 → u16 r4 →
  decode [r0; r1; r2; r3; r4] = Ret rd →
  Forall (λ x, PrimFloat.leb 0%float x = true
               ∧ PrimFloat.leb x 65535%float = true)
         [humidity rd; temp_c rd; temp_f rd; dewpoint_c rd; dewpoint_f rd].
Proof.
  intros H0 H1 H2 H3 H4 Hdec.
  assert (Hr : ∀ r, u16 r →
    let in_range x := PrimFloat.leb 0%float x = true
                      ∧ PrimFloat.leb x 65535%float = true in
    in_range (float_of_int r)
    ∧ in_range (PrimFloat.div (float_of_int r) 20%float)
    ∧ in_range (PrimFloat.div (float_of_int r) 100%float)).
  { intros r Hr. pose proof (fields_in_range r Hr) as Hf.
    unfold field_in_range in Hf. cbn zeta in Hf.
    rewrite !andb_true_iff in Hf. cbn zeta. tauto. }
  destruct (Hr r0 H0) as (? & ? & ?), (Hr r1 H1) as (? & ? & ?),
    (Hr r2 H2) as (? & ? & ?), (Hr r3 H3) as (? & ? & ?),
    (Hr r4 H4) as (? & ? & ?).
  rewrite decode_five in Hdec. injection Hdec as <-.
  destruct (1000 <? r0); cbn [humidity temp_c temp_f dewpoint_c dewpoint_f];
    repeat (apply Forall_cons_2; [assumption|]); apply Forall_nil_2.
Qed.

Lemma decoded_fields_nonnegative_witness :
  (u16 65535 ∧ u16 0)
  ∧ Forall (λ x, PrimFloat.leb 0%float x = true
                 ∧ PrimFloat.leb x 65535%float = true)
      [PrimFloat.div (float_of_int 65535) 100%float;
       PrimFloat.div (float_of_int 65535) 20%float;
       PrimFloat.div (float_of_int 0) 20%float;
       PrimFloat.div (float_of_int 65535) 100%float;
       PrimFloat.div (float_of_int 0) 100%float].
Proof.
  assert (H1 : u16 65535) by (unfold u16; lia).
  assert (H0 : u16 0) by (unfold u16; lia).
  split; [by split|].
  exact (decoded_fields_nonnegative 65535 65535 0 65535 0 _ H1 H1 H0 H1 H0
           (decode_five 65535 65535 0 65535 0)).
Defined.

(** ** Invariants of the acquisition loop *)

Lemma cycle_cases (env : cycle_env) : cycle_case env (cycle_actions env).
Proof.
  destruct (env_connect env) as [[|]|msg] eqn:Hconn.
  - destruct (env_read env) as [res|msg] eqn:Hread.
    + destruct (isError res) eqn:Herr.
      * destruct (env_close env) as [[]|msg] eqn:Hclose.
        -- erewrite actions_modbus_error by done.
           by eapply case_modbus_error.
        -- erewrite actions_fault_in_close_after_modbus_error by done.
           by eapply case_modbus_error_close_fault.
      * destruct (decode (registers res)) as [rd|msg] eqn:Hdec.
        -- destruct (env_close env) as [[]|msg] eqn:Hclose.
           ++ erewrite actions_online by done. by eapply case_online.
           ++ erewrite actions_fault_in_close_after_online by done.
              by eapply case_online_close_fault.
        -- erewrite actions_fault_in_decode by done.
           by eapply case_fault_in_decode.
    + erewrite actions_fault_in_read by done. by apply case_fault_in_read.
  - erewrite actions_connect_failed by done. by apply case_connect_failed.
  - erewrite actions_fault_in_connect by done.
    by apply case_fault_in_connect.
Qed.

Lemma online_dict_lookups (rd : reading) (now : string) (raw : list Z) :
  online_dict rd now raw !! "humidity" = Some (VFloat (humidity rd))
  ∧ online_dict rd now raw !! "temp_c" = Some (VFloat (temp_c rd))
  ∧ online_dict rd now raw !! "temp_f" = Some (VFloat (temp_f rd))
  ∧ online_dict rd now raw !! "dewpoint_c" = Some (VFloat (dewpoint_c rd))
  ∧ online_dict rd now raw !! "dewpoint_f" = Some (VFloat (dewpoint_f rd))
  ∧ online_dict rd now raw !! "dewpoint_spread"
      = Some (VFloat (dewpoint_spread rd))
  ∧ online_dict rd now raw !! "timestamp" = Some (VStr now)
  ∧ online_dict rd now raw !! "status" = Some (VStr "Online")
  ∧ online_dict rd now raw !! "raw_values" = Some (VInts raw).
Proof. repeat split. Qed.

(** From the start of the process on, whatever the device does, the
    dictionary [sensor_data] always has exactly its nine keys: no
    iteration drops or adds one, so no reader ever misses a key. *)
Theorem sensor_data_keys_invariant (envs : list cycle_env) :
  dom (read_sensor_data sensor_data_init envs)
    = (list_to_set snapshot_keys : gset string)
  ∧ Forall (λ k, is_Some (read_sensor_data sensor_data_init envs !! k))
           snapshot_keys.
Proof.
  assert (Hstep : ∀ (d : dict) env,
            dom d = (list_to_set snapshot_keys : gset string) →
            dom (loop_iteration d env)
              = (list_to_set snapshot_keys : gset string)).
  { intros d env Hd. unfold loop_iteration.
    assert (Hstatus : ∀ (d' : dict) tag,
              dom d' = (list_to_set snapshot_keys : gset string) →
              dom (<["status" := VStr tag]> d')
                = (list_to_set snapshot_keys : gset string)).
    { intros d' tag Hd'. rewrite dom_insert_lookup_L; [done|].
      by apply status_in_snapshot. }
    destruct (cycle_cases env); cbn [foldl apply_action];
      auto using online_dict_keys. }
  assert (Hdom : dom (read_sensor_data sensor_data_init envs)
                   = (list_to_set snapshot_keys : gset string)).
  { unfold read_sensor_data.
    generalize sensor_data_init_keys. generalize sensor_data_init.
    induction envs as [|env envs IH]; intros d Hd; [done|].
    cbn [foldl]. by apply IH, Hstep. }
  split; [exact Hdom|].
  apply Forall_forall. intros k Hk. apply elem_of_dom. rewrite Hdom.
  by apply elem_of_list_to_set.
Qed.

(** From the start of the process on, the numbers served always belong
    to the registers served: the six numeric fields of [sensor_data] are
    the decoding of its own ["raw_values"], also after failed
    iterations and before the first success. *)
Theorem sensor_data_decodes_raw_values (envs : list cycle_env) :
  decoded_snapshot (read_sensor_data sensor_data_init envs).
Proof.
  assert (Hinit : decoded_snapshot sensor_data_init).
  { exists [0; 0; 0; 0; 0], (Reading 0 0 0 0 0 0)%float. by repeat split. }
  assert (Honline : ∀ rd now raw,
            decode raw = Ret rd → decoded_snapshot (online_dict rd now raw)).
  { intros rd now raw Hdec. exists raw, rd.
    pose proof (online_dict_lookups rd now raw). tauto. }
  assert (Hstatus : ∀ (d : dict) tag,
            decoded_snapshot d →
            decoded_snapshot (<["status" := VStr tag]> d)).
  { intros d tag (raw & rd & Hraw & Hdec & H).
    exists raw, rd. rewrite !lookup_insert_ne by done. tauto. }
  assert (Hstep : ∀ d env,
            decoded_snapshot d → decoded_snapshot (loop_iteration d env)).
  { intros d env Hd. unfold loop_iteration.
    destruct (cycle_cases env); cbn [foldl apply_action]; auto. }
  unfold read_sensor_data. revert Hinit. generalize sensor_data_init.
  induction envs as [|env envs IH]; intros d Hd; [done|].
  cbn [foldl]. by apply IH, Hstep.
Qed.

(** The status an iteration leaves, by the case of the iteration. *)
Lemma iteration_status (env : cycle_env) :
  ∃ tag,
    (∀ d : dict, loop_iteration d env !! "status" = Some (VStr tag))
    ∧ (String.eqb tag "Online" = true
       ↔ publishes env = true ∧ env_close env = Ret tt).
Proof.
  unfold loop_iteration, publishes.
  destruct (cycle_cases env) as
    [Hc|msg Hc|msg Hc Hr|res Hc Hr He Hcl|res msg Hc Hr He Hcl
    |res msg Hc Hr He Hd|res rd Hc Hr He Hd Hcl|res rd msg Hc Hr He Hd Hcl];
    cbn [foldl apply_action existsb is_rebind orb].
  - exists "Connection Failed". split; [intros d; apply lookup_insert_eq|].
    split; [done|by intros [? _]].
  - exists ("Error: " +:+ msg). split; [intros d; apply lookup_insert_eq|].
    split; [done|by intros [? _]].
  - exists ("Error: " +:+ msg). split; [intros d; apply lookup_insert_eq|].
    split; [done|by intros [? _]].
  - exists "Modbus Error". split; [intros d; apply lookup_insert_eq|].
    split; [done|by intros [? _]].
  - exists ("Error: " +:+ msg). split; [intros d; apply lookup_insert_eq|].
    split; [done|by intros [? _]].
  - exists ("Error: " +:+ msg). split; [intros d; apply lookup_insert_eq|].
    split; [done|by intros [? _]].
  - exists "Online". split; [intros d; apply online_dict_lookups|]. done.
  - exists ("Error: " +:+ msg). split; [intros d; apply lookup_insert_eq|].
    split; [done|]. intros [_ Hcl']. congruence.
Qed.

(** Every iteration stores the status anew, so the status served is that
    of the latest iteration and never a leftover: it does not depend on
    the dictionary the iteration started from.  It is 'Online' exactly
    when the iteration published a Reading and [close()] returned; then,
    and only then, the page shows its status badge as online. *)
Theorem status_reflects_latest_iteration (env : cycle_env) :
  (∀ d d' : dict,
     loop_iteration d env !! "status" = loop_iteration d' env !! "status")
  ∧ (∀ d : dict, ∃ tag, loop_iteration d env !! "status" = Some (VStr tag))
  ∧ (∀ d : dict,
       status_online (loop_iteration d env) = true
       ↔ publishes env = true ∧ env_close env = Ret tt)
  ∧ (∀ d : dict,
       status_class (loop_iteration d env) = "status online"
       ↔ publishes env = true ∧ env_close env = Ret tt).
Proof.
  destruct (iteration_status env) as (tag & Htag & Honline).
  split; [intros d d'; by rewrite !Htag|].
  split; [intros d; by exists tag|].
  split; intros d.
  - unfold status_online. by rewrite Htag.
  - unfold status_class. rewrite Htag, <- Honline.
    by destruct (String.eqb tag "Online").
Qed.

(** ** The calls on the Modbus client *)

(** In every iteration the loop calls [connect()] first and once; it
    reads (address 0, count 5, device id 199) only after [connect()]
    returned true, at most once; and it calls [close()] only after a
    read, at most once.  No other call sequence occurs. *)
Theorem client_call_protocol (env : cycle_env) :
  (client_calls env = [Connect]
   ∨ client_calls env = [Connect; ReadHoldingRegisters 0 5 199]
   ∨ client_calls env = [Connect; ReadHoldingRegisters 0 5 199; Close])
  ∧ (env_connect env = Ret true
     ↔ ReadHoldingRegisters 0 5 199 ∈ client_calls env)
  ∧ (env_connect env ≠ Ret true ↔ client_calls env = [Connect]).
Proof.
  unfold client_calls.
  destruct (cycle_cases env) as
    [Hc|msg Hc|msg Hc Hr|res Hc Hr He Hcl|res msg Hc Hr He Hcl
    |res msg Hc Hr He Hd|res rd Hc Hr He Hd Hcl|res rd msg Hc Hr He Hd Hcl];
    cbn [omap list_omap]; rewrite Hc.
  all: split; [auto|]; split; split.
  all: solve
    [ discriminate
    | not_called
    | by intros _
    | intros _; discriminate
    | intros _; apply elem_of_cons; right; apply elem_of_cons; by left
    | intros Hne; by destruct Hne
    | intros Heq Hne; discriminate ].
Qed.

(** ** Stale data *)

Lemma read_sensor_data_app (d : dict) (envs1 envs2 : list cycle_env) :
  read_sensor_data d (envs1 ++ envs2)
    = read_sensor_data (read_sensor_data d envs1) envs2.
Proof. unfold read_sensor_data. by rewrite foldl_app. Qed.

Lemma failed_run_keeps_reading (d : dict) (envs : list cycle_env)
  (k : string) :
  Forall (λ env, publishes env = false) envs → k ≠ "status" →
  read_sensor_data d envs !! k = d !! k.
Proof.
  intros Hall Hk. revert d.
  induction Hall as [|env envs Henv _ IH]; intros d; [done|].
  cbn [read_sensor_data foldl]. unfold read_sensor_data in IH.
  rewrite IH. by apply unpublished_iteration.
Qed.

(** No history is kept and none leaks: after an iteration that read and
    decoded successfully, followed by any number of failed iterations,
    the Reading served (the numbers, the raw registers and the
    timestamp) is that of the successful iteration, whatever
    [sensor_data] held before it. *)
Theorem reading_is_last_published (d : dict) (envs1 envs2 : list cycle_env)
  (env : cycle_env) (res : modbus_response) (rd : reading) (k : string) :
  env_connect env = Ret true → env_read env = Ret res →
  isError res = false → decode (registers res) = Ret rd →
  Forall (λ env', publishes env' = false) envs2 →
  k ≠ "status" →
  read_sensor_data d (envs1 ++ env :: envs2) !! k
    = online_dict rd (env_now env) (registers res) !! k.
Proof.
  intros Hc Hr He Hd Hfail Hk.
  rewrite read_sensor_data_app.
  change (read_sensor_data ?d0 (env :: envs2))
    with (read_sensor_data (loop_iteration d0 env) envs2).
  rewrite failed_run_keeps_reading by done.
  unfold loop_iteration.
  destruct (env_close env) as [[]|msg] eqn:Hcl.
  - by erewrite actions_online.
  - erewrite actions_fault_in_close_after_online by done.
    cbn [foldl apply_action]. by rewrite lookup_insert_ne.
Qed.

Lemma reading_is_last_published_witness :
  (env_connect env_online = Ret true
   ∧ env_read env_online = Ret (Response false sample_registers)
   ∧ decode sample_registers
       = Ret (Reading 45.5 22 56.2 18.9 33.62 3.1000000000000014)%float
   ∧ Forall (λ env', publishes env' = false)
            [env_read_timeout; env_unreachable])
  ∧ read_sensor_data sensor_data_init
      ([env_unreachable] ++ env_online
         :: [env_read_timeout; env_unreachable]) !! "timestamp"
    = online_dict (Reading 45.5 22 56.2 18.9 33.62 3.1000000000000014)%float
        sample_time sample_registers !! "timestamp".
Proof.
  assert (Hd : decode sample_registers
       = Ret (Reading 45.5 22 56.2 18.9 33.62 3.1000000000000014)%float)
    by (vm_compute; reflexivity).
  assert (Hfail : Forall (λ env', publishes env' = false)
                         [env_read_timeout; env_unreachable])
    by (by repeat constructor).
  split; [by repeat split|].
  by apply (reading_is_last_published sensor_data_init [env_unreachable]
              [env_read_timeout; env_unreachable] env_online
              (Response false sample_registers) _ "timestamp").
Defined.

(** ** The start-up wait of main *)

Lemma waited_below_max (j : nat) :
  (j < 20)%nat → PrimFloat.ltb (waited_after j) 10%float = true.
Proof. intros Hj. do 20 (destruct j as [|j]; [reflexivity|]). lia. Qed.

Lemma waited_reaches_max :
  PrimFloat.ltb (waited_after 20) 10%float = false.
Proof. reflexivity. Qed.

(** The loop from its [j]-th read on, when the first read that ends it
    is the [k]-th. *)
Lemma wait_for_online_from (obs : nat → dict) (k : nat) :
  (k ≤ 20)%nat →
  (∀ i, (i < k)%nat → status_online (obs i) = false) →
  status_online (obs k) = true ∨ k = 20%nat →
  ∀ n j fuel, (j + n)%nat = k → (n < fuel)%nat →
    wait_for_online fuel obs j (waited_after j)
      = Some (S k, waited_after k).
Proof.
  intros Hk Hoff Hend n.
  induction n as [|n IH]; intros j fuel Hj Hfuel;
    destruct fuel as [|fuel]; try lia; cbn [wait_for_online].
  - assert (j = k) as -> by lia.
    destruct Hend as [Hon| ->]; [by rewrite Hon|].
    by rewrite waited_reaches_max, andb_false_r.
  - rewrite Hoff, waited_below_max by lia. cbn [negb andb].
    apply (IH (S j)); lia.
Qed.

(** Every sequence of observations has a first read that ends the loop,
    among the first twenty-one. *)
Lemma first_online (obs : nat → dict) (n : nat) :
  ∃ k, (k ≤ n)%nat
       ∧ (∀ i, (i < k)%nat → status_online (obs i) = false)
       ∧ (status_online (obs k) = true ∨ k = n).
Proof.
  induction n as [|n (k & Hk & Hoff & [Hon|Heq])].
  - exists 0%nat. split; [lia|]. split; [lia|by right].
  - exists k. split; [lia|]. split; [done|by left].
  - subst k. destruct (status_online (obs n)) eqn:Hn.
    + exists n. split; [lia|]. split; [done|by left].
    + exists (S n). split; [lia|]. split; [|by right].
      intros i Hi. destruct (decide (i = n)) as [->|]; [done|].
      apply Hoff. lia.
Qed.

(** The start-up wait always ends, after at most twenty sleeps of half a
    second (ten seconds): it sleeps once for every read that finds the
    status not 'Online', stops at the first read that finds it 'Online',
    and gives up at the twenty-first read.  The browser is opened when
    the status is 'Online' at the next read, the one of
    [connection_ok], whatever the loop saw. *)
Theorem startup_wait_bounded (obs : nat → dict) :
  (∃ sleeps,
     (sleeps ≤ 20)%nat
     ∧ ∀ fuel, (20 < fuel)%nat →
         startup_wait fuel obs
           = Some (sleeps, status_online (obs (S sleeps))))
  ∧ (∀ k fuel,
       (k ≤ 20)%nat → (20 < fuel)%nat →
       (∀ i, (i < k)%nat → status_online (obs i) = false) →
       status_online (obs k) = true ∨ k = 20%nat →
       startup_wait fuel obs = Some (k, status_online (obs (S k)))).
Proof.
  assert (Hrun : ∀ k fuel,
       (k ≤ 20)%nat → (20 < fuel)%nat →
       (∀ i, (i < k)%nat → status_online (obs i) = false) →
       status_online (obs k) = true ∨ k = 20%nat →
       startup_wait fuel obs = Some (k, status_online (obs (S k)))).
  { intros k fuel Hk Hfuel Hoff Hend. unfold startup_wait.
    change 0%float with (waited_after 0).
    by rewrite (wait_for_online_from obs k Hk Hoff Hend k 0 fuel)
      by lia. }
  split; [|exact Hrun].
  destruct (first_online obs 20) as (k & Hk & Hoff & Hend).
  exists k. split; [done|]. intros fuel Hfuel. by apply Hrun.
Qed.

Lemma startup_wait_bounded_witness :
  ((2 ≤ 20)%nat ∧ (20 < 21)%nat)
  ∧ startup_wait 21
      (λ i, if (i <? 2)%nat then sensor_data_init
            else loop_iteration sensor_data_init env_online)
    = Some (2%nat, true).
Proof.
  split; [lia|].
  apply (proj2 (startup_wait_bounded
           (λ i, if (i <? 2)%nat then sensor_data_init
                 else loop_iteration sensor_data_init env_online))
           2%nat 21%nat); [lia|lia| |by left].
  intros i Hi. by do 2 (destruct i as [|i]; [reflexivity|]); lia.
Defined.

(** An iteration that does not publish leaves the status not 'Online'. *)
Lemma unpublished_not_online (d : dict) (envs : list cycle_env) :
  Forall (λ env, publishes env = false) envs →
  status_online d = false →
  status_online (read_sensor_data d envs) = false.
Proof.
  intros Hall. revert d.
  induction Hall as [|env envs Henv _ IH]; intros d Hd; [done|].
  cbn [read_sensor_data foldl]. apply IH.
  destruct (iteration_status env) as (tag & Htag & Honline).
  unfold status_online. rewrite Htag.
  destruct (String.eqb tag "Online") eqn:Heq; [|done].
  destruct (proj1 Honline eq_refl) as [Hpub _]. congruence.
Qed.

(** An iteration that publishes and closes leaves the status 'Online'. *)
Lemma healthy_online (d : dict) (envs : list cycle_env) :
  Forall (λ env, publishes env = true ∧ env_close env = Ret tt) envs →
  status_online d = true ∨ envs ≠ [] →
  status_online (read_sensor_data d envs) = true.
Proof.
  intros Hall. revert d.
  induction Hall as [|env envs Henv _ IH]; intros d Hd.
  - by destruct Hd.
  - cbn [read_sensor_data foldl]. apply IH. left.
    destruct (iteration_status env) as (tag & Htag & Honline).
    unfold status_online. rewrite Htag. by apply Honline.
Qed.

(** Start-up against the acquisition thread.  If no iteration publishes
    a Reading while main waits (the device stays unreachable or keeps
    failing), main sleeps the full twenty times and does not open the
    browser.  If every iteration reads successfully and one has run
    before main's first read, main opens the browser without sleeping. *)
Theorem startup_against_acquisition (envs : nat → list cycle_env) :
  ((∀ i, Forall (λ env, publishes env = false) (envs i)) →
   ∀ fuel, (20 < fuel)%nat →
     startup_wait fuel (observed envs) = Some (20%nat, false))
  ∧ ((∀ i, Forall (λ env, publishes env = true ∧ env_close env = Ret tt)
                  (envs i)) →
     envs 0%nat ≠ [] →
     ∀ fuel, (20 < fuel)%nat →
       startup_wait fuel (observed envs) = Some (0%nat, true)).
Proof.
  split.
  - intros Hfail fuel Hfuel.
    assert (Hoff : ∀ i, status_online (observed envs i) = false).
    { induction i as [|i IH]; cbn [observed];
        by apply unpublished_not_online. }
    unfold startup_wait. change 0%float with (waited_after 0).
    rewrite (wait_for_online_from (observed envs) 20 (le_n 20)
               (λ i _, Hoff i) (or_intror eq_refl) 20 0 fuel eq_refl Hfuel).
    by rewrite Hoff.
  - intros Hok Hran fuel Hfuel.
    assert (Hon : ∀ i, status_online (observed envs i) = true).
    { induction i as [|i IH]; cbn [observed]; apply healthy_online;
        auto. }
    unfold startup_wait. change 0%float with (waited_after 0).
    assert (Hnone : ∀ i, (i < 0)%nat →
              status_online (observed envs i) = false) by lia.
    rewrite (wait_for_online_from (observed envs) 0 (Nat.le_0_l 20)
               Hnone (or_introl (Hon 0%nat)) 0 0 fuel eq_refl)
      by lia.
    by rewrite Hon.
Qed.

Lemma startup_against_acquisition_witness :
  ((∀ i : nat, Forall (λ env, publishes env = false) [env_unreachable])
   ∧ (20 < 21)%nat)
  ∧ startup_wait 21 (observed (λ _, [env_unreachable]))
    = Some (20%nat, false).
Proof.
  assert (Hfail : ∀ i : nat,
            Forall (λ env, publishes env = false) [env_unreachable])
    by (intros _; by repeat constructor).
  split; [split; [exact Hfail|lia]|].
  apply (proj1 (startup_against_acquisition (λ _, [env_unreachable]))
           Hfail 21%nat). lia.
Defined.

(** ** The administrator check *)

(** Closes the propositional cases of the check. *)
Ltac admin_cases :=
  repeat split; intros;
  repeat match goal with
         | H : _ ∧ _ |- _ => destruct H
         | H : _ ∨ _ |- _ => destruct H
         | H : ∃ _, _ |- _ => destruct H
         end;
  try congruence; try done;
  first [ left; split; [done|]; eexists; split; [done|congruence]
        | right; split; [done|]; congruence
        | right; split; done
        | right; split; [done|]; eexists; done
        | left; done
        | split; [done|]; split; [done|]; eexists; done
        | split; [done|]; left; done
        | split; [done|]; right; split; [done|]; eexists; done
        | eauto 8 ].

(** The module-level check lets the program continue in two cases only:
    [is_admin()] is truthy, or the platform is neither Windows nor Linux
    (there [run_as_admin] does nothing and the program goes on without
    privileges).  On Windows and Linux a non-administrator never gets
    past it: the exit code is 0 on Windows when [ShellExecuteW] returns,
    whatever it returns (also an error code, when elevation was
    refused), and 1 when it raises and on Linux.  A fault while asking
    the system counts as "not administrator". *)
Theorem admin_check_outcomes (w : admin_env) :
  (admin_check w = Returns
   ↔ truthy (is_admin w) = true
     ∨ (platform_system w ≠ "Windows" ∧ platform_system w ≠ "Linux"))
  ∧ (admin_check w = SysExit 0
     ↔ truthy (is_admin w) = false ∧ platform_system w = "Windows"
       ∧ ∃ r, ShellExecuteW w = Ret r)
  ∧ (admin_check w = SysExit 1
     ↔ truthy (is_admin w) = false
       ∧ (platform_system w = "Linux"
          ∨ (platform_system w = "Windows"
             ∧ ∃ msg, ShellExecuteW w = Raise msg)))
  ∧ (truthy (is_admin w) = true
     ↔ (platform_system w = "Windows"
        ∧ ∃ n, IsUserAnAdmin w = Ret n ∧ n ≠ 0)
       ∨ (platform_system w ≠ "Windows" ∧ geteuid w = Ret 0)).
Proof.
  unfold admin_check, run_as_admin, is_admin.
  destruct w as [sys isadmin euid shell]. cbn [platform_system
    IsUserAnAdmin geteuid ShellExecuteW].
  destruct (String.eqb_spec sys "Windows") as [->|Hwin].
  - change (String.eqb "Windows" "Linux") with false.
    destruct isadmin as [n|e]; cbn [mbind outcome_bind mret outcome_ret
      truthy]; [destruct (Z.eqb_spec n 0) as [->|Hn]; cbn [negb]|];
      destruct shell as [r|e']; admin_cases.
  - destruct euid as [uid|e]; cbn [mbind outcome_bind mret outcome_ret
      truthy]; [destruct (Z.eqb_spec uid 0) as [->|Hn]; cbn [negb]|];
      destruct (String.eqb_spec sys "Linux") as [->|Hlin]; admin_cases.
Qed.

(** ** Other readers of sensor_data *)

Lemma visit_in_visits (ts : list tick) (k : string) :
  k ∈ visits ts → Visit k ∈ ts.
Proof.
  unfold visits. intros Hin.
  apply list_elem_of_omap in Hin as (t & Ht & Hk).
  destruct t; try discriminate Hk. by injection Hk as ->.
Qed.

(** The console line of [console_display] is never torn either: it
    loads [sensor_data] once ([data = sensor_data]), so the status, the
    temperature, the humidity and the dew point it prints all come from
    the dictionary as it stood at one instant during the reads, however
    the acquisition thread is interleaved; and the defaults of
    [data.get(key, 0)] are never used, since the keys are always there. *)
Theorem console_line_from_one_snapshot (pre mid : list tick) :
  Forall writer_tick pre →
  Forall (λ t, writer_tick t ∨ request_tick t) mid →
  visits mid = console_keys →
  ∃ mid1 mid2,
    mid = mid1 ++ mid2
    ∧ Forall (λ k, ∃ v,
               req_json (run_schedule (memory_init, request_init)
                           (pre ++ Load :: mid)).2 !! k = Some v
               ∧ foldl apply_action sensor_data_init
                   (writes (pre ++ mid1)) !! k = Some v)
             console_keys.
Proof.
  intros Hpre Hmid Hvisits.
  destruct (request_inv_run pre mid Hpre Hmid)
    as (_ & _ & _ & da & snap & _ & _ & Hpub & Hsub & _ & Hvisited & _).
  destruct Hpub as (mid1 & mid2 & Hsplit & Hsnap).
  rewrite <- run_schedule_app in Hsnap.
  rewrite deref_run_schedule in Hsnap by (unfold mem_wf; cbn; lia).
  rewrite !writes_app in Hsnap. cbn [writes omap] in Hsnap.
  rewrite app_nil_r, <- writes_app in Hsnap.
  change (deref (memory_init, request_init).1) with sensor_data_init in Hsnap.
  rewrite <- run_schedule_app, <- app_assoc in Hsub, Hvisited.
  cbn [app] in Hsub, Hvisited.
  exists mid1, mid2. split; [done|]. rewrite Hsnap.
  apply Forall_forall. intros k Hk.
  destruct (Hvisited k) as [v Hv].
  - apply visit_in_visits. by rewrite Hvisits.
  - unfold console_keys in Hk. unfold snapshot_keys.
    rewrite !elem_of_cons, elem_of_nil in Hk.
    destruct Hk as [->|[->|[->|[->|[]]]]]; repeat constructor.
  - exists v. split; [done|]. by apply (lookup_weaken _ _ _ _ Hv Hsub).
Qed.

Lemma console_line_from_one_snapshot_witness :
  let pre := Writer <$> cycle_actions env_online in
  let mid := [Visit "status"; Visit "temp_c";
              Writer (Call Connect);
              Writer (SetItem "status" (VStr "Connection Failed"));
              Visit "humidity"; Visit "dewpoint_c"] in
  (Forall writer_tick pre
   ∧ Forall (λ t, writer_tick t ∨ request_tick t) mid
   ∧ visits mid = console_keys)
  ∧ ∃ mid1 mid2,
      mid = mid1 ++ mid2
      ∧ Forall (λ k, ∃ v,
                 req_json (run_schedule (memory_init, request_init)
                             (pre ++ Load :: mid)).2 !! k = Some v
                 ∧ foldl apply_action sensor_data_init
                     (writes (pre ++ mid1)) !! k = Some v)
               console_keys.
Proof.
  intros pre mid.
  assert (Hpre : Forall writer_tick pre) by apply cycle_ticks.
  assert (Hfail : ∀ a, a ∈ cycle_actions env_unreachable →
                       writer_tick (Writer a) ∨ request_tick (Writer a))
    by (intros a Ha; left; by exists env_unreachable).
  assert (Hmid : Forall (λ t, writer_tick t ∨ request_tick t) mid).
  { unfold mid.
    repeat (apply Forall_cons_2;
            [first [right; exact I | apply Hfail; cbn; repeat constructor]|]).
    apply Forall_nil_2. }
  split; [by repeat split|].
  exact (console_line_from_one_snapshot pre mid Hpre Hmid eq_refl).
Defined.

(** The "First reading" line of [main] is not protected in this way: it
    evaluates [sensor_data.get('humidity', 0)] and
    [sensor_data.get('temp_c', 0)] with a load of the global name each.
    When a successful iteration runs between the two, the line pairs the
    humidity of the earlier Reading with the temperature of the later
    one. *)
Theorem first_reading_line_can_mix (env1 env2 : cycle_env)
  (res1 res2 : modbus_response) (rd1 rd2 : reading) :
  env_connect env1 = Ret true → env_read env1 = Ret res1 →
  isError res1 = false → decode (registers res1) = Ret rd1 →
  env_close env1 = Ret tt →
  env_connect env2 = Ret true → env_read env2 = Ret res2 →
  isError res2 = false → decode (registers res2) = Ret rd2 →
  env_close env2 = Ret tt →
  req_json (run_schedule (memory_init, request_init)
              ((Writer <$> cycle_actions env1)
               ++ first_reading_ticks (Writer <$> cycle_actions env2))).2
    = <["temp_c" := VFloat (temp_c rd2)]>
        (<["humidity" := VFloat (humidity rd1)]> ∅).
Proof.
  intros Hc1 Hr1 He1 Hd1 Hcl1 Hc2 Hr2 He2 Hd2 Hcl2.
  rewrite (actions_online env1 res1 rd1), (actions_online env2 res2 rd2)
    by done.
  pose proof (proj1 (online_dict_lookups rd1 (env_now env1)
                       (registers res1))) as H1.
  pose proof (proj1 (proj2 (online_dict_lookups rd2 (env_now env2)
                              (registers res2)))) as H2.
  revert H1 H2.
  generalize (online_dict rd1 (env_now env1) (registers res1)).
  generalize (online_dict rd2 (env_now env2) (registers res2)).
  intros d2 d1 H1 H2.
  unfold first_reading_ticks, run_schedule.
  cbn. rewrite H1. cbn. by rewrite H2.
Qed.

Lemma first_reading_line_can_mix_witness :
  decode sample_registers
    = Ret (Reading 45.5 22 56.2 18.9 33.62 3.1000000000000014)%float
  ∧ decode [5000; 500; 1220; 1400; 3000]
    = Ret (Reading 50 25 61 14 30 11)%float
  ∧ req_json (run_schedule (memory_init, request_init)
      ((Writer <$> cycle_actions env_online)
       ++ first_reading_ticks
            (Writer <$> cycle_actions
               (CycleEnv (Ret true)
                  (Ret (Response false [5000; 500; 1220; 1400; 3000]))
                  sample_time (Ret tt))))).2
    = <["temp_c" := VFloat 25%float]>
        (<["humidity" := VFloat 45.5%float]> ∅).
Proof.
  assert (Hd1 : decode sample_registers
    = Ret (Reading 45.5 22 56.2 18.9 33.62 3.1000000000000014)%float)
    by (vm_compute; reflexivity).
  assert (Hd2 : decode [5000; 500; 1220; 1400; 3000]
    = Ret (Reading 50 25 61 14 30 11)%float) by (vm_compute; reflexivity).
  split; [exact Hd1|]. split; [exact Hd2|].
  exact (first_reading_line_can_mix env_online
           (CycleEnv (Ret true)
              (Ret (Response false [5000; 500; 1220; 1400; 3000]))
              sample_time (Ret tt))
           (Response false sample_registers)
           (Response false [5000; 500; 1220; 1400; 3000])
           _ _ eq_refl eq_refl eq_refl Hd1 eq_refl
           eq_refl eq_refl eq_refl Hd2 eq_refl).
Defined.

(** ** The page script *)

Lemma humidity_warning_by_register (r : Z) :
  u16 r → humidity_warning_agrees r = true.
Proof. revert r. apply u16_forall. vm_compute. reflexivity. Qed.

(** The page marks the humidity card with a warning exactly when the
    decoded humidity is above 80 or below 20: for a scaled first
    register (above 1000) when it is below 2000 or above 8000, for an
    unscaled one when it is below 20 or above 80.  In particular every
    unscaled first register from 81 to 1000 is shown as a humidity above
    80 %, with the warning. *)
Theorem humidity_card_warning (r0 r1 r2 r3 r4 : Z) (rd : reading) :
  u16 r0 → decode [r0; r1; r2; r3; r4] = Ret rd →
  humidity_card_class (humidity rd) = "card warning"
  ↔ (if 1000 <? r0 then r0 < 2000 ∨ 8000 < r0 else r0 < 20 ∨ 80 < r0).
Proof.
  intros H0 Hdec. rewrite decode_five in Hdec. injection Hdec as <-.
  pose proof (humidity_warning_by_register r0 H0) as Hagree.
  unfold humidity_warning_agrees in Hagree. cbn zeta in Hagree.
  apply Bool.eqb_prop in Hagree. unfold humidity_card_class.
  destruct (1000 <? r0); cbn [humidity]; rewrite Hagree.
  - destruct (Z.ltb_spec r0 2000), (Z.ltb_spec 8000 r0); cbn;
      split; try done; try lia; intros [|]; lia.
  - destruct (Z.ltb_spec r0 20), (Z.ltb_spec 80 r0); cbn;
      split; try done; try lia; intros [|]; lia.
Qed.

Lemma humidity_card_warning_witness :
  (u16 4550
   ∧ decode sample_registers
       = Ret (Reading 45.5 22 56.2 18.9 33.62 3.1000000000000014)%float)
  ∧ (humidity_card_class 45.5%float = "card warning"
     ↔ (if 1000 <? 4550 then 4550 < 2000 ∨ 8000 < 4550
        else 4550 < 20 ∨ 80 < 4550)).
Proof.
  assert (H0 : u16 4550) by (unfold u16; lia).
  assert (Hd : decode sample_registers
    = Ret (Reading 45.5 22 56.2 18.9 33.62 3.1000000000000014)%float)
    by (vm_compute; reflexivity).
  split; [by split|].
  exact (humidity_card_warning 4550 440 1124 1890 3362 _ H0 Hd).
Defined.

(** The language button.  After [toggleLanguage] the current language
    is one of the two with a translation table, and it is what
    [localStorage] holds, so that loading the page again restores it;
    between the two languages the button switches to the other one and
    two presses come back.  With nothing stored (or the empty string)
    the page starts in Portuguese. *)
Theorem language_toggle :
  (∀ pg, translated (currentLang (toggleLanguage pg))
         ∧ page_load (stored_language (toggleLanguage pg))
           = toggleLanguage pg)
  ∧ (∀ pg, translated (currentLang pg) →
           currentLang (toggleLanguage pg) ≠ currentLang pg
           ∧ toggleLanguage (toggleLanguage (toggleLanguage pg))
             = toggleLanguage pg
           ∧ currentLang (toggleLanguage (toggleLanguage pg))
             = currentLang pg)
  ∧ (∀ pg, ¬ translated (currentLang pg) →
           currentLang (toggleLanguage pg) = "pt")
  ∧ (∀ stored, stored = None ∨ stored = Some "" →
               currentLang (page_load stored) = "pt").
Proof.
  unfold translated, toggleLanguage, page_load.
  split; [|split; [|split]].
  - intros [lang stored]. cbn [currentLang stored_language].
    destruct (String.eqb_spec lang "pt"); split; auto.
  - intros [lang stored]. cbn [currentLang stored_language].
    by intros [->| ->].
  - intros [lang stored]. cbn [currentLang]. intros Hno.
    destruct (String.eqb_spec lang "pt") as [->|]; [|done].
    destruct Hno. by left.
  - by intros stored [->| ->].
Qed.

Lemma language_toggle_witness :
  translated (currentLang (page_load None))
  ∧ currentLang (toggleLanguage (page_load None)) = "en"
  ∧ currentLang (toggleLanguage (toggleLanguage (page_load None))) = "pt".
Proof.
  assert (Hpt : translated (currentLang (page_load None))) by (by left).
  split; [exact Hpt|]. split; [reflexivity|].
  exact (proj2 (proj2 (proj1 (proj2 language_toggle) _ Hpt))).
Defined.

(** The page's shutdown poll.  The page replaces itself by the "server
    stopped" notice exactly when the answer of [/shutdown] comes from a
    process whose [shutdown_flag] is set; so as long as no
    [KeyboardInterrupt] has reached the main thread, no poll shows the
    notice. *)
Theorem shutdown_notice_only_after_interrupt :
  (∀ p, shutdown_detected (shutdown p) = shutdown_flag p)
  ∧ (∀ evs resp,
       KeyboardInterrupt ∉ evs →
       (GetShutdown, Some resp) ∈ (run process_init evs).2 →
       shutdown_detected resp = false).
Proof.
  assert (Hpoll : ∀ p, shutdown_detected (shutdown p) = shutdown_flag p).
  { intros p. unfold shutdown. by destruct (shutdown_flag p). }
  split; [exact Hpoll|].
  assert (Hrun : ∀ evs p resp,
            shutdown_flag p = false → KeyboardInterrupt ∉ evs →
            (GetShutdown, Some resp) ∈ (run p evs).2 →
            shutdown_detected resp = false).
  { induction evs as [|e evs IH]; intros p resp Hflag Hno Hin.
    - cbn in Hin. by apply elem_of_nil in Hin.
    - apply not_elem_of_cons in Hno as [Hne Hno].
      cbn [run] in Hin.
      assert (Hflag' : shutdown_flag (step p e).1 = false).
      { unfold step. destruct (main_at p), e; try done. }
      destruct (step p e) as [p' r] eqn:Hstep.
      destruct (run p' evs) as [q rs] eqn:Hrs. cbn [fst snd] in *.
      apply elem_of_cons in Hin as [Heq|Hin].
      + injection Heq as <- <-. unfold step in Hstep.
        destruct (main_at p); try discriminate Hstep;
          injection Hstep as _ <-; by rewrite Hpoll.
      + apply (IH p' resp Hflag' Hno). by rewrite Hrs. }
  intros evs resp. by apply Hrun.
Qed.

Lemma shutdown_notice_only_after_interrupt_witness :
  ((KeyboardInterrupt ∉ [MainReady; Acquire env_online; GetShutdown])
   ∧ ((GetShutdown, Some ({["status" := VStr "running"]} : dict))
       ∈ (run process_init
            [MainReady; Acquire env_online; GetShutdown]).2))
  ∧ shutdown_detected ({["status" := VStr "running"]} : dict) = false.
Proof.
  assert (Hno : KeyboardInterrupt
                  ∉ [MainReady; Acquire env_online; GetShutdown]).
  { rewrite !not_elem_of_cons. repeat split; try discriminate.
    apply not_elem_of_nil. }
  assert (Hin : (GetShutdown,
                 Some ({["status" := VStr "running"]} : dict))
       ∈ (run process_init
            [MainReady; Acquire env_online; GetShutdown]).2).
  { cbn. do 2 (apply elem_of_cons; right). apply elem_of_cons. by left. }
  split; [by split|].
  exact (proj2 shutdown_notice_only_after_interrupt _ _ Hno Hin).
Defined.

(** ** Ctrl+C during start-up *)




